(** * Business-description similarity pipeline: ranking and filtering

    A shallow embedding of [src/data_preprocessing.py], [src/embedding.py],
    [src/similarity.py] and [src/filtering_non_similar_companies.py].

    The Python code is a thin layer over pandas, torch, nltk and
    sentence-transformers.  The parts of pandas the code calls are modelled
    by executable functions on a small [DataFrame] type ([Module pd]); the
    text model, the tokenizer and [torch.topk] are an interface
    ([Library]) with the laws their documentation promises
    ([LibraryLaws]).  Python objects that can be mutated in place
    (DataFrames) live in a heap and are passed by reference. *)

From Stdlib Require Import QArith Qround Ascii String Lqa.
From stdpp Require Import gmap strings list sorting.

Local Open Scope Z_scope.
Set Warnings "-register-all,-clear-no-such-hyp".

(** ** Exceptions and results *)

(** The Python exception classes the modelled calls can raise.
    [ReferenceError] is only produced by dereferencing a location that is
    not allocated, which no Python program can do. *)
Inductive exn :=
  | KeyError | TypeError | AttributeError | ValueError
  | IndexError | RuntimeError | ReferenceError.

Inductive result (A : Type) :=
  | Ok (a : A)
  | Raise (e : exn).
Arguments Ok {A} a.
Arguments Raise {A} e.

#[global] Instance result_ret : MRet result := @Ok.
#[global] Instance result_bind : MBind result := λ A B f r,
  match r with Ok a => f a | Raise e => Raise e end.
#[global] Instance result_fmap : FMap result := λ A B f r,
  match r with Ok a => Ok (f a) | Raise e => Raise e end.

(** [for x in xs: ys.append(f(x))], stopping at the first exception. *)
Fixpoint mapM {A B} (f : A → result B) (xs : list A) : result (list B) :=
  match xs with
  | [] => Ok []
  | x :: xs' => y ← f x; ys ← mapM f xs'; Ok (y :: ys)
  end.

(** ** Scores *)

(** Similarity scores are Python floats; they are modelled as rationals. *)
#[global] Instance Qle_dec : RelDecision Qle.
Proof.
  intros a b. destruct (Qlt_le_dec b a) as [H|H].
  - right. apply Qlt_not_le, H.
  - left. exact H.
Defined.

#[global] Instance Qlt_dec : RelDecision Qlt.
Proof.
  intros a b. destruct (Qlt_le_dec a b) as [H|H].
  - left. exact H.
  - right. apply Qle_not_lt, H.
Defined.

#[global] Instance Qeq_dec : RelDecision Qeq := Qeq_dec.

#[global] Instance Q_eq_dec : EqDecision Q.
Proof. solve_decision. Defined.

(** [round(x)]: to the nearest integer, halves to the even neighbour. *)
Definition round_half_even (x : Q) : Z :=
  let f := Qfloor x in
  match (x - inject_Z f ?= 1 # 2)%Q with
  | Lt => f
  | Gt => f + 1
  | Eq => if Z.even f then f else f + 1
  end.

(** [round(x, 4)] *)
Definition round4 (x : Q) : Q := round_half_even (x * 10000) # 10000.

(** [max(x, y)] on scores. *)
Definition Qmax (x y : Q) : Q := if decide (x <= y)%Q then y else x.

(** ** Cells and tables *)

(** The values a table cell holds in this program: a Python [str], a
    float, the missing value NaN, or a list-like object (the list of
    sentences [sent_tokenize] returns; a [Series]). *)
Inductive cell :=
  | CStr (s : string)
  | CFloat (q : Q)
  | CNaN
  | CList (vs : list cell).

Definition is_str (c : cell) : bool :=
  match c with CStr _ => true | _ => false end.

(** A row holds one cell per column label, in column order. *)
Abbreviation Row := (list cell).

Record DataFrame := {
  columns : list string;
  rows : list Row;
}.

(** Hashable cell values, as used for group keys and set members.  Equal
    floats are one key whatever their fraction. *)
Inductive key :=
  | KStr (s : string)
  | KNum (q : Q).

#[global] Instance key_eq_dec : EqDecision key.
Proof. solve_decision. Defined.

#[global] Instance key_countable : Countable key.
Proof.
  refine (inj_countable'
    (λ k, match k with
          | KStr s => inl s
          | KNum q => inr (Qnum q, Qden q)
          end)
    (λ x, match x with
          | inl s => KStr s
          | inr (n, d) => KNum (n # d)
          end) _).
  intros [s|[n d]]; reflexivity.
Defined.

(** [hash(c)]: lists are unhashable; NaN is a missing key. *)
Definition hash_key (c : cell) : result (option key) :=
  match c with
  | CStr s => Ok (Some (KStr s))
  | CFloat q => Ok (Some (KNum (Qred q)))
  | CNaN => Ok None
  | CList _ => Raise TypeError
  end.

(** The order pandas puts group keys in: numbers before strings, numbers
    by value, strings by code point. *)
Definition key_le (a b : key) : Prop :=
  match a, b with
  | KNum x, KNum y => (x <= y)%Q
  | KNum _, KStr _ => True
  | KStr _, KNum _ => False
  | KStr s, KStr t => String.leb s t = true
  end.

#[global] Instance key_le_dec : RelDecision key_le.
Proof. intros [s|x] [t|y]; simpl; apply _. Defined.

Module pd.

(** The cells of [r] under label [name] (several when the label is
    duplicated, none when it is absent). *)
Definition cells_at (cols : list string) (r : Row) (name : string) : list cell :=
  (filter (λ p, p.1 = name) (zip cols r)).*2.

Definition cell_at (cols : list string) (r : Row) (name : string) : cell :=
  default CNaN (head (cells_at cols r name)).

(** [row[name]] on a row taken from a table ([Series.__getitem__]): the
    scalar, or the sub-series of all cells under a duplicated label. *)
Definition row_getitem (cols : list string) (r : Row) (name : string) : result cell :=
  match cells_at cols r name with
  | [] => Raise KeyError
  | [c] => Ok c
  | cs => Ok (CList cs)
  end.

(** [df[name]] used as a [Series].  With a duplicated label pandas
    returns a [DataFrame]; the method then called on it fails with an
    exception that depends on the method, given as [dup]. *)
Definition getitem (dup : exn) (df : DataFrame) (name : string) : result (list cell) :=
  match filter (λ c, c = name) (columns df) with
  | [] => Raise KeyError
  | [_] => Ok ((λ r, cell_at (columns df) r name) <$> rows df)
  | _ => Raise dup
  end.

(** [df[name] = values]: replaces the column(s) labelled [name], or
    appends a new last column. *)
Definition set_cell (cols : list string) (name : string) (v : cell) (r : Row) : Row :=
  if decide (name ∈ cols)
  then zip_with (λ c old, if decide (c = name) then v else old) cols r
  else r ++ [v].

Definition set_label (cols : list string) (name : string) : list string :=
  if decide (name ∈ cols) then cols else cols ++ [name].

Definition setitem (df : DataFrame) (name : string) (values : list cell) : DataFrame :=
  {| columns := set_label (columns df) name;
     rows := zip_with (set_cell (columns df) name) values (rows df) |}.

(** [df.rename(columns=mapping)]: labels not in the mapping stay, keys
    of the mapping that are not labels are ignored. *)
Definition rename (mapping : gmap string string) (df : DataFrame) : DataFrame :=
  {| columns := (λ c, default c (mapping !! c)) <$> columns df;
     rows := rows df |}.

(** [series.str.lower()]: the accessor needs a column that can hold
    strings (a non-empty column of floats and NaN only is a float column);
    non-string elements become NaN. *)
Definition is_number (c : cell) : bool :=
  match c with CFloat _ | CNaN => true | _ => false end.

Definition str_cell (f : string → string) (c : cell) : cell :=
  match c with CStr s => CStr (f s) | _ => CNaN end.

Definition str_map (f : string → string) (col : list cell) : result (list cell) :=
  match col with
  | _ :: _ =>
      if forallb is_number col then Raise AttributeError
      else Ok (str_cell f <$> col)
  | [] => Ok []
  end.

(** [series.apply(f)] for an [f] that accepts only [str] and returns a
    list of [str]. *)
Definition apply_cell (f : string → list string) (c : cell) : result cell :=
  match c with
  | CStr s => Ok (CList (CStr <$> f s))
  | _ => Raise TypeError
  end.

Definition apply (f : string → list string) (col : list cell) : result (list cell) :=
  mapM (apply_cell f) col.

(** [df.explode(name)]: one row per element of the list-like cell; an
    empty list-like gives one row with NaN; scalars stay. *)
Definition explode_row (cols : list string) (name : string) (r : Row) : list Row :=
  match cell_at cols r name with
  | CList [] => [set_cell cols name CNaN r]
  | CList vs => (λ v, set_cell cols name v r) <$> vs
  | _ => [r]
  end.

Definition explode (df : DataFrame) (name : string) : result DataFrame :=
  if decide (NoDup (columns df)) then
    if decide (name ∈ columns df) then
      Ok {| columns := columns df;
            rows := rows df ≫= explode_row (columns df) name |}
    else Raise KeyError
  else Raise ValueError.

(** [df.reset_index(drop=True)]: row labels are not part of the model
    (the program addresses rows by position only); the call still
    builds a new table. *)
Definition reset_index (df : DataFrame) : DataFrame := df.

(** [df.iloc[i]] *)
Definition iloc (df : DataFrame) (i : nat) : result Row :=
  match rows df !! i with
  | Some r => Ok r
  | None => Raise IndexError
  end.

(** [df[mask]] with a boolean mask: the rows whose flag is set. *)
Definition getitem_mask (df : DataFrame) (mask : list bool) : DataFrame :=
  {| columns := columns df;
     rows := (filter (λ p, p.2 = true) (zip (rows df) mask)).*1 |}.

(** [series.isin(values)] for a Python set of hashable values. *)
Definition isin (col : list cell) (values : gset key) : result (list bool) :=
  mapM (λ c, k ← hash_key c;
             Ok (match k with Some k => bool_decide (k ∈ values) | None => false end))
       col.

(** [df.groupby(name)]: the distinct keys in sorted order, each with its
    rows in table order; rows with a missing key belong to no group. *)
Definition group_rows (keys : list (option key)) (rs : list Row) (k : key) : list Row :=
  (filter (λ p, p.1 = Some k) (zip keys rs)).*2.

Definition groupby (df : DataFrame) (name : string) : result (list (key * DataFrame)) :=
  col ← getitem ValueError df name;
  keys ← mapM hash_key col;
  let distinct := merge_sort key_le (remove_dups (omap id keys)) in
  Ok ((λ k, (k, {| columns := columns df;
                   rows := group_rows keys (rows df) k |})) <$> distinct).

(** [pd.DataFrame(records)] for a list of dicts that all have the keys
    [labels], in this order. *)
Definition of_records (labels : list string) (records : list Row) : DataFrame :=
  {| columns := match records with [] => [] | _ => labels end;
     rows := records |}.

End pd.

(** ** The heap of tables *)

(** DataFrames are Python objects: a variable holds a reference, and
    [inplace=True] or [df[name] = ...] changes the object every holder of
    the reference sees.  A computation takes the heap and gives a result or
    an exception, with the heap it leaves behind. *)
Abbreviation loc := nat.
Abbreviation Heap := (gmap nat DataFrame).

Definition M (A : Type) : Type := Heap → result A * Heap.

#[global] Instance M_ret : MRet M := λ A a h, (Ok a, h).
#[global] Instance M_bind : MBind M := λ A B f m h,
  match m h with
  | (Ok a, h') => f a h'
  | (Raise e, h') => (Raise e, h')
  end.

(** A pure step that may raise. *)
Definition lift {A} (r : result A) : M A := λ h, (r, h).

(** A call that builds a new table object. *)
Definition new (df : DataFrame) : M loc := λ h,
  let l := fresh (dom h) in (Ok l, <[l := df]> h).

(** Reading the object behind a reference. *)
Definition deref (l : loc) : M DataFrame := λ h,
  match h !! l with
  | Some df => (Ok df, h)
  | None => (Raise ReferenceError, h)
  end.

(** Changing the object behind a reference in place. *)
Definition assign (l : loc) (df : DataFrame) : M unit := λ h,
  (Ok (), <[l := df]> h).

(** ** The libraries behind the code *)

(** What the program takes from nltk, sentence-transformers and torch.
    [encode_batch] is [model.encode(sentences, convert_to_tensor=True)] on
    a list of Python objects; [encode] is the vector of one sentence. *)
Class Library := {
  Vec : Type;
  str_lower : string → string;
  sent_tokenize : string → list string;
  encode : string → Vec;
  encode_batch : list cell → result (list Vec);
  cos : Vec → Vec → Q;
  topk : list Q → Z → result (list (Q * nat));
}.

(** [values] in descending order. *)
Definition descending (values : list Q) : Prop :=
  ∀ i j x y, (i ≤ j)%nat → values !! i = Some x → values !! j = Some y → (y <= x)%Q.

(** What the documentation of the libraries promises.
    - [model.encode] on strings gives one vector per string, in order
      (none for the empty list), and the vector of a string does not
      depend on the rest of the list.  What it does with a list that
      holds something else than strings is left open.
    - [torch.topk(input, k)] needs [0 <= k <= len(input)]; it returns the
      [k] largest elements in descending order with the positions they
      were taken from.  Which of several equal elements comes first, or is
      taken at all, is not part of its contract. *)
Class LibraryLaws (L : Library) : Prop := {
  encode_batch_str : ∀ ss : list string,
    encode_batch (CStr <$> ss) = Ok (encode <$> ss);
  topk_range : ∀ (xs : list Q) (k : Z),
    ¬ (0 ≤ k ≤ Z.of_nat (length xs)) → topk xs k = Raise RuntimeError;
  topk_ok : ∀ (xs : list Q) (k : Z),
    0 ≤ k ≤ Z.of_nat (length xs) →
    ∃ res, topk xs k = Ok res
      ∧ Z.of_nat (length res) = k
      ∧ NoDup res.*2
      ∧ (∀ v i, (v, i) ∈ res → xs !! i = Some v)
      ∧ descending res.*1
      ∧ (∀ j w v i, xs !! j = Some w → j ∉ res.*2 → (v, i) ∈ res → (w <= v)%Q);
}.

Section Program.
Context {L : Library}.

(** *** src/embedding.py *)

Definition encode_sentences (sentences : list cell) : result (list Vec) :=
  encode_batch sentences.

(** [util.cos_sim(a, b)]: the matrix of cosines of the rows of [a]
    against the rows of [b].  An empty operand is the tensor
    [encode_sentences([])] returns, of shape (0,), which [cos_sim] takes
    for one vector of dimension 0.  Against vectors of the model's
    dimension the matrix product fails on the shapes; of two empty
    operands it is the product of a 1x0 by a 0x1 matrix, [[0.]]. *)
Definition cos_sim (a b : list Vec) : result (list (list Q)) :=
  match a, b with
  | _ :: _, _ :: _ => Ok ((λ x, cos x <$> b) <$> a)
  | [], [] => Ok [[0%Q]]
  | _, _ => Raise RuntimeError
  end.

(** [t[0]] *)
Definition first_row {A} (t : list A) : result A :=
  match t with
  | x :: _ => Ok x
  | [] => Raise IndexError
  end.

(** [t.max().item()] *)
Definition tensor_max (t : list Q) : result Q :=
  match t with
  | x :: t' => Ok (foldl Qmax x t')
  | [] => Raise RuntimeError
  end.

(** *** src/data_preprocessing.py *)

Definition load_columns : gmap string string :=
  {[ "Company Name" := "company_name";
     "Business Description" := "business_description" ]}.

(** [load_data], from the table [pd.read_csv(file_path)] returned. *)
Definition load_data (csv : DataFrame) : M loc :=
  df ← new csv;
  d ← deref df; assign df (pd.rename load_columns d);;
  d ← deref df;
  description ← lift (pd.getitem AttributeError d "business_description");
  cleaned ← lift (pd.str_map str_lower description);
  assign df (pd.setitem d "cleaned_description" cleaned);;
  d ← deref df;
  cleaned ← lift (pd.getitem TypeError d "cleaned_description");
  sentences ← lift (pd.apply sent_tokenize cleaned);
  assign df (pd.setitem d "sentences" sentences);;
  d ← deref df;
  exploded ← lift (pd.explode d "sentences");
  exploded ← new exploded;
  d ← deref exploded;
  renamed ← new (pd.rename {[ "sentences" := "individual_sentences" ]} d);
  d ← deref renamed;
  new (pd.reset_index d).

(** *** src/filtering_non_similar_companies.py *)

Definition threshold_default : Q := 6 # 10.

Definition is_similar_to_non_similar
    (description_embedding : Vec) (non_similar_embeddings : list Vec)
    (threshold : Q) : result bool :=
  scores ← cos_sim [description_embedding] non_similar_embeddings;
  cosine_scores ← first_row scores;
  m ← tensor_max cosine_scores;
  Ok (bool_decide (threshold <= m)%Q).

(** The inner loop: [for embedding in embeddings: if ...: add; break].
    [true] when the loop reached [companies_to_exclude.add]. *)
Fixpoint any_similar (embeddings : list Vec) (non_similar_embeddings : list Vec)
    (threshold : Q) : result bool :=
  match embeddings with
  | [] => Ok false
  | embedding :: rest =>
      hit ← is_similar_to_non_similar embedding non_similar_embeddings threshold;
      if hit : bool then Ok true
      else any_similar rest non_similar_embeddings threshold
  end.

(** One turn of the outer loop [for company_name, group in grouped]. *)
Definition scan_group (non_similar_embeddings : list Vec) (threshold : Q)
    (companies_to_exclude : gset key) (g : key * DataFrame) : result (gset key) :=
  sentences ← pd.getitem AttributeError g.2 "individual_sentences";
  embeddings ← encode_sentences sentences;
  hit ← any_similar embeddings non_similar_embeddings threshold;
  Ok (if hit : bool then {[ g.1 ]} ∪ companies_to_exclude else companies_to_exclude).

(** The outer loop over the groups. *)
Fixpoint scan_groups (non_similar_embeddings : list Vec) (threshold : Q)
    (companies_to_exclude : gset key) (grouped : list (key * DataFrame))
    : result (gset key) :=
  match grouped with
  | [] => Ok companies_to_exclude
  | g :: rest =>
      s ← scan_group non_similar_embeddings threshold companies_to_exclude g;
      scan_groups non_similar_embeddings threshold s rest
  end.

(** The set [companies_to_exclude] after the loop over the groups of
    the table [d]. *)
Definition excluded_companies (threshold : Q) (d : DataFrame)
    (non_similar_embeddings : list Vec) : result (gset key) :=
  grouped ← pd.groupby d "company_name";
  scan_groups non_similar_embeddings threshold ∅ grouped.

(** [filter_non_similar] with the threshold that
    [is_similar_to_non_similar] is called with made explicit.  When the
    column of company names is read for [isin], a missing or duplicated
    label has already made [groupby] raise. *)
Definition filter_non_similar_at (threshold : Q)
    (df_expanded : loc) (non_similar_sentences : list string) : M loc :=
  non_similar_embeddings ← lift (encode_sentences (CStr <$> non_similar_sentences));
  d ← deref df_expanded;
  companies_to_exclude ← lift (excluded_companies threshold d non_similar_embeddings);
  d ← deref df_expanded;
  names ← lift (pd.getitem AttributeError d "company_name");
  excluded ← lift (pd.isin names companies_to_exclude);
  kept ← new (pd.getitem_mask d (negb <$> excluded));
  d ← deref kept;
  new (pd.reset_index d).

(** The call in the source leaves [threshold] at its default. *)
Definition filter_non_similar : loc → list string → M loc :=
  filter_non_similar_at threshold_default.

(** *** src/similarity.py *)

Definition top_k_default : Z := 25.

Definition result_labels : list string :=
  ["company_name"; "business_description"; "similar_sentence"; "similarity_score"].

(** One turn of the loop over [zip(top_results[0], top_results[1])]: the
    dict appended to [results]. *)
Definition result_record (d : DataFrame) (hit : Q * nat) : result Row :=
  r ← pd.iloc d hit.2;
  company_name ← pd.row_getitem (columns d) r "company_name";
  r ← pd.iloc d hit.2;
  business_description ← pd.row_getitem (columns d) r "business_description";
  r ← pd.iloc d hit.2;
  similar_sentence ← pd.row_getitem (columns d) r "individual_sentences";
  Ok [company_name; business_description; similar_sentence; CFloat (round4 hit.1)].

Definition find_top_similar (input_texts : list string) (bd_embeddings : list Vec)
    (data : loc) (top_k : Z) : M loc :=
  input_embeddings ← lift (encode_sentences (CStr ∘ str_lower <$> input_texts));
  scores ← lift (cos_sim input_embeddings bd_embeddings);
  cosine_scores ← lift (first_row scores);
  top_results ← lift (topk cosine_scores top_k);
  d ← deref data;
  results ← lift (mapM (result_record d) top_results);
  new (pd.of_records result_labels results).

(** *** The tables the three functions return

    The same steps with the heap left out: what the returned reference
    points to, given the content of the table passed in. *)

Definition load_data_value (csv : DataFrame) : result DataFrame :=
  let d1 := pd.rename load_columns csv in
  description ← pd.getitem AttributeError d1 "business_description";
  cleaned ← pd.str_map str_lower description;
  let d2 := pd.setitem d1 "cleaned_description" cleaned in
  cleaned ← pd.getitem TypeError d2 "cleaned_description";
  sentences ← pd.apply sent_tokenize cleaned;
  let d3 := pd.setitem d2 "sentences" sentences in
  exploded ← pd.explode d3 "sentences";
  Ok (pd.reset_index (pd.rename {[ "sentences" := "individual_sentences" ]} exploded)).

(** The rows [load_data] makes of one record [r] of the renamed table
    with labels [cols]: the two assignments, then [explode]. *)
Definition sentences_cell (c : cell) : cell :=
  match c with CStr s => CList (CStr <$> sent_tokenize s) | _ => CNaN end.

Definition record_rows (cols : list string) (r : Row) : list Row :=
  let cols2 := pd.set_label cols "cleaned_description" in
  let cols3 := pd.set_label cols2 "sentences" in
  let r2 := pd.set_cell cols "cleaned_description"
              (pd.str_cell str_lower (pd.cell_at cols r "business_description")) r in
  let r3 := pd.set_cell cols2 "sentences"
              (sentences_cell (pd.cell_at cols2 r2 "cleaned_description")) r2 in
  pd.explode_row cols3 "sentences" r3.

Definition filter_non_similar_value (threshold : Q) (d : DataFrame)
    (non_similar_sentences : list string) : result DataFrame :=
  non_similar_embeddings ← encode_sentences (CStr <$> non_similar_sentences);
  companies_to_exclude ← excluded_companies threshold d non_similar_embeddings;
  names ← pd.getitem AttributeError d "company_name";
  excluded ← pd.isin names companies_to_exclude;
  Ok (pd.reset_index (pd.getitem_mask d (negb <$> excluded))).

(** The scores of the candidates against the first query, and the
    result of [torch.topk] on them. *)
Definition query_scores (input_texts : list string) (bd_embeddings : list Vec)
    : result (list Q) :=
  input_embeddings ← encode_sentences (CStr ∘ str_lower <$> input_texts);
  scores ← cos_sim input_embeddings bd_embeddings;
  first_row scores.

Definition find_top_similar_value (input_texts : list string)
    (bd_embeddings : list Vec) (d : DataFrame) (top_k : Z) : result DataFrame :=
  cosine_scores ← query_scores input_texts bd_embeddings;
  top_results ← topk cosine_scores top_k;
  results ← mapM (result_record d) top_results;
  Ok (pd.of_records result_labels results).

(** *** The filter in the words of its contract *)

Definition cell_str (c : cell) : option string :=
  match c with CStr s => Some s | _ => None end.

(** The company and the sentence of a row. *)
Definition row_company (cols : list string) (r : Row) : option string :=
  cell_str (pd.cell_at cols r "company_name").

Definition row_sentence (cols : list string) (r : Row) : option string :=
  cell_str (pd.cell_at cols r "individual_sentences").

(** [sentence] scores [threshold] or more against some excluded
    reference sentence. *)
Definition sentence_flagged (threshold : Q) (excluded : list string)
    (sentence : string) : Prop :=
  Exists (λ x, (threshold <= cos (encode sentence) (encode x))%Q) excluded.

(** The sentence of row [r] is such a sentence. *)
Definition row_flagged (threshold : Q) (excluded : list string)
    (cols : list string) (r : Row) : Prop :=
  ∃ s, row_sentence cols r = Some s ∧ sentence_flagged threshold excluded s.

(** The company [c] has such a sentence in the table [d]. *)
Definition company_flagged (threshold : Q) (excluded : list string)
    (d : DataFrame) (c : string) : Prop :=
  Exists (λ r, row_company (columns d) r = Some c
               ∧ row_flagged threshold excluded (columns d) r)
         (rows d).

(** The group key of a row whose company name is a string. *)
Definition row_key (cols : list string) (r : Row) : option key :=
  KStr <$> row_company cols r.

(** A row is kept when its company has no such sentence. *)
Definition kept (threshold : Q) (excluded : list string)
    (d : DataFrame) (r : Row) : Prop :=
  ∀ c, row_company (columns d) r = Some c →
       ¬ company_flagged threshold excluded d c.

#[global] Instance sentence_flagged_dec threshold excluded sentence :
  Decision (sentence_flagged threshold excluded sentence).
Proof. unfold sentence_flagged. apply _. Defined.

#[global] Instance row_flagged_dec threshold excluded cols r :
  Decision (row_flagged threshold excluded cols r).
Proof.
  unfold row_flagged. destruct (row_sentence cols r) as [s|];
    [|right; by intros [? [? _]]].
  destruct (decide (sentence_flagged threshold excluded s)) as [Hs|Hs].
  - left. eauto.
  - right. intros [? [[= <-] ?]]. done.
Defined.

#[global] Instance company_flagged_dec threshold excluded d c :
  Decision (company_flagged threshold excluded d c).
Proof. unfold company_flagged. apply _. Defined.

#[global] Instance kept_dec threshold excluded d r :
  Decision (kept threshold excluded d r).
Proof.
  unfold kept. destruct (row_company (columns d) r) as [c|].
  - destruct (decide (company_flagged threshold excluded d c)) as [H|H].
    + right. intros Hk. by apply (Hk c).
    + left. by intros ? [= <-].
  - left. by intros ? [=].
Defined.

End Program.

(** ** The script *)

Section Script.
Context {L : Library}.

(** *** main.py *)

Definition input_sentences : list string := ["provides consultancy services."].

Definition non_similar_sentences : list string := ["company provides consumer loans"].

(** [series.tolist()] on [df[name]]; a [DataFrame] has no [tolist]. *)
Definition column_tolist (d : DataFrame) (name : string) : result (list cell) :=
  pd.getitem AttributeError d name.

(** The script, from the table [pd.read_csv(DATA_PATH)] returned to the
    two tables it writes with [to_csv]: the unfiltered and the filtered
    top results.  The prints, the two [to_csv] calls and the final plot
    are left out. *)
Definition main (csv : DataFrame) : M (loc * loc) :=
  df_expanded ← load_data csv;
  d ← deref df_expanded;
  bd_sentences ← lift (column_tolist d "individual_sentences");
  bd_embeddings ← lift (encode_sentences bd_sentences);
  results_df ← find_top_similar input_sentences bd_embeddings df_expanded top_k_default;
  df_filtered ← filter_non_similar df_expanded non_similar_sentences;
  d ← deref df_filtered;
  filtered_sentences ← lift (column_tolist d "individual_sentences");
  filtered_embeddings ← lift (encode_sentences filtered_sentences);
  filtered_results_df ←
    find_top_similar input_sentences filtered_embeddings df_filtered top_k_default;
  mret (results_df, filtered_results_df).

(** *** Words for the properties below *)

(** The sentences of the description of a record of the renamed table. *)
Definition record_sentences (cols : list string) (r : Row) : list string :=
  match pd.cell_at cols r "business_description" with
  | CStr s => sent_tokenize (str_lower s)
  | _ => []
  end.

(** The flag [isin] gives a cell for the set [values]. *)
Definition in_values (values : gset key) (c : cell) : bool :=
  match hash_key c with
  | Ok (Some k) => bool_decide (k ∈ values)
  | _ => false
  end.

End Script.

(** ** Shapes of tables *)

(** Labels are unique and every row has one cell per label. *)
Definition well_formed (df : DataFrame) : Prop :=
  NoDup (columns df) ∧ Forall (λ r, length r = length (columns df)) (rows df).

(** The table has the three columns the ranker reads, and full rows. *)
Definition ranker_table (d : DataFrame) : Prop :=
  Forall (λ name, name ∈ columns d)
    ["company_name"; "business_description"; "individual_sentences"]
  ∧ Forall (λ r, length r = length (columns d)) (rows d).

(** Ties broken by ascending candidate index, in the words of the
    ranker's contract: of two hits with equal scores, the one listed first
    is at the lower candidate position. *)
Definition ties_by_index (hits : list (Q * nat)) : Prop :=
  ∀ m n v i w j,
    (m < n)%nat → hits !! m = Some (v, i) → hits !! n = Some (w, j) →
    (v == w)%Q → (i < j)%nat.

(** [r] is a result row with similarity score [s]. *)
Definition has_score (r : Row) (s : Q) : Prop :=
  pd.row_getitem
    ["company_name"; "business_description"; "similar_sentence"; "similarity_score"]
    r "similarity_score" = Ok (CFloat s).

(** The table has a column [name] and all its cells are strings. *)
Definition text_column (df : DataFrame) (name : string) : Prop :=
  name ∈ columns df ∧
  Forall (λ r, ∃ s, pd.cells_at (columns df) r name = [CStr s]) (rows df).


(** ** Properties of computations *)

(** [preserves m]: whatever [m] does, and whether it returns or raises,
    every table that was in the heap is still there with the same
    content. *)
Definition preserves {A} (m : M A) : Prop := ∀ h, h ⊆ (m h).2.

(** [allocates m]: [m] preserves the heap, and the reference it returns
    is to an object that did not exist before. *)
Definition allocates (m : M loc) : Prop :=
  ∀ h, h ⊆ (m h).2 ∧ (∀ l, (m h).1 = Ok l → (l ∉ dom h) ∧ (l ∈ dom (m h).2)).

(** [returns m h df]: run from [h], [m] returns a reference to a table
    with content [df]. *)
Definition returns (m : M loc) (h : Heap) (df : DataFrame) : Prop :=
  ∃ l h', m h = (Ok l, h') ∧ h' !! l = Some df.

(** [raises m h e]: run from [h], [m] ends with the exception [e]. *)
Definition raises {A} (m : M A) (h : Heap) (e : exn) : Prop :=
  (m h).1 = Raise e.

(** ** A small library instance

    Stand-ins for the tokenizer, the text model and [torch.topk], used to
    run the pipeline on concrete tables.  A sentence is embedded as its
    length and two sentences are the closer the nearer their lengths;
    [topk] sorts the scored positions, equal scores by ascending position
    ([ties_ascending = true]) or by descending position. *)
Module Toy.

Definition lower_ascii (c : ascii) : ascii :=
  let n := nat_of_ascii c in
  if ((65 <=? n) && (n <=? 90))%nat then ascii_of_nat (n + 32) else c.

Fixpoint lower (s : string) : string :=
  match s with
  | EmptyString => EmptyString
  | String c s' => String (lower_ascii c) (lower s')
  end.

(** Sentences end at a full stop; blanks before a sentence are dropped
    and so is an empty last sentence. *)
Fixpoint split_sentences (acc : string) (s : string) : list string :=
  match s with
  | EmptyString => if decide (acc = EmptyString) then [] else [acc]
  | String c s' =>
      if decide (c = "."%char) then (acc +:+ ".") :: split_sentences EmptyString s'
      else if decide (c = " "%char ∧ acc = EmptyString) then split_sentences acc s'
      else split_sentences (acc +:+ String c EmptyString) s'
  end.

Definition ratio (a b : nat) : Q :=
  match Nat.max a b with
  | O => 1
  | S m => Z.of_nat (Nat.min a b) # Pos.of_succ_nat m
  end.

Definition encode_cell (c : cell) : result nat :=
  match c with
  | CStr s => Ok (String.length s)
  | _ => Raise TypeError
  end.

Definition hit_before (ties_ascending : bool) (a b : Q * nat) : Prop :=
  (b.1 < a.1)%Q ∨
  ((a.1 == b.1)%Q ∧ if ties_ascending then (a.2 ≤ b.2)%nat else (b.2 ≤ a.2)%nat).

#[global] Instance hit_before_dec asc : RelDecision (hit_before asc).
Proof.
  intros a b. unfold hit_before.
  destruct asc; apply _.
Defined.

Definition sorted_topk (ties_ascending : bool) (xs : list Q) (k : Z) : result (list (Q * nat)) :=
  if decide (0 ≤ k ≤ Z.of_nat (length xs)) then
    Ok (take (Z.to_nat k)
          (merge_sort (hit_before ties_ascending) (zip xs (seq 0 (length xs)))))
  else Raise RuntimeError.

Definition library (ties_ascending : bool) : Library := {|
  Vec := nat;
  str_lower := lower;
  sent_tokenize := split_sentences EmptyString;
  encode := String.length;
  encode_batch := mapM encode_cell;
  cos := ratio;
  topk := sorted_topk ties_ascending;
|}.

End Toy.

(** ** The top-k kernel of torch on the CPU

    [torch.topk] on a CPU tensor pairs every value with its position,
    selects with [std::nth_element] and orders the selected pairs with
    [std::sort], both under the comparator "has the greater value".
    These are the two algorithms as libstdc++ has them, on an array held
    as a list.  Two paths are outside the model and answered by [None]:
    the heap selection [std::nth_element] falls back to when its depth
    limit is used up, and vectors of more than 16 values, on which
    [std::sort] partitions and the kernel may call [std::partial_sort]. *)
Module Kernel.

Definition elem : Type := Q * nat.

(** The comparator of the kernel: [x.first > y.first] (no value is NaN). *)
Definition comp (x y : elem) : bool := bool_decide (y.1 < x.1)%Q.

(** [a[i]] *)
Definition get (a : list elem) (i : nat) : elem := default (0%Q, 0%nat) (a !! i).

Definition iter_swap (a : list elem) (i j : nat) : list elem :=
  <[i := get a j]> (<[j := get a i]> a).

(** [std::__move_median_to_first] *)
Definition move_median_to_first (a : list elem) (result x y z : nat) : list elem :=
  if comp (get a x) (get a y) then
    if comp (get a y) (get a z) then iter_swap a result y
    else if comp (get a x) (get a z) then iter_swap a result z
    else iter_swap a result x
  else if comp (get a x) (get a z) then iter_swap a result x
  else if comp (get a y) (get a z) then iter_swap a result z
  else iter_swap a result y.

(** [while (comp(first, pivot)) ++first;] *)
Fixpoint scan_up (fuel : nat) (a : list elem) (pivot first : nat) : nat :=
  match fuel with
  | O => first
  | S fuel =>
      if comp (get a first) (get a pivot) then scan_up fuel a pivot (S first) else first
  end.

(** [while (comp(pivot, last)) --last;] *)
Fixpoint scan_down (fuel : nat) (a : list elem) (pivot last : nat) : nat :=
  match fuel with
  | O => last
  | S fuel =>
      if comp (get a pivot) (get a last) then scan_down fuel a pivot (pred last) else last
  end.

(** [std::__unguarded_partition] *)
Fixpoint unguarded_partition (fuel : nat) (a : list elem) (first last pivot : nat)
    : list elem * nat :=
  match fuel with
  | O => (a, first)
  | S fuel =>
      let first := scan_up (length a) a pivot first in
      let last := scan_down (length a) a pivot (pred last) in
      if decide (first < last)%nat
      then unguarded_partition fuel (iter_swap a first last) (S first) last pivot
      else (a, first)
  end.

(** [std::__unguarded_partition_pivot] *)
Definition unguarded_partition_pivot (a : list elem) (first last : nat)
    : list elem * nat :=
  let mid := (first + (last - first) / 2)%nat in
  let a := move_median_to_first a first (S first) mid (pred last) in
  unguarded_partition (length a) a (S first) last first.

(** [std::__unguarded_linear_insert], [val] taken out of position [last] *)
Fixpoint unguarded_linear_insert (a : list elem) (val : elem) (last : nat) : list elem :=
  match last with
  | O => <[last := val]> a
  | S next =>
      if comp val (get a next)
      then unguarded_linear_insert (<[last := get a next]> a) val next
      else <[last := val]> a
  end.

(** [std::move_backward(first, i, i + 1); *first = val] *)
Definition move_to_first (a : list elem) (first i : nat) : list elem :=
  take first a ++ get a i :: take (i - first) (drop first a) ++ drop (S i) a.

(** [std::__insertion_sort]: the loop from [i] with [n] turns to go *)
Fixpoint insertion_loop (n : nat) (a : list elem) (first i : nat) : list elem :=
  match n with
  | O => a
  | S n =>
      let a := if comp (get a i) (get a first) then move_to_first a first i
               else unguarded_linear_insert a (get a i) i in
      insertion_loop n a first (S i)
  end.

Definition insertion_sort (a : list elem) (first last : nat) : list elem :=
  if decide (first = last) then a
  else insertion_loop (last - S first) a first (S first).

(** [std::__introselect] *)
Fixpoint introselect (depth_limit : nat) (a : list elem) (first nth last : nat)
    : option (list elem) :=
  if decide (3 < last - first)%nat then
    match depth_limit with
    | O => None
    | S depth_limit =>
        let '(a, cut) := unguarded_partition_pivot a first last in
        if decide (cut ≤ nth)%nat then introselect depth_limit a cut nth last
        else introselect depth_limit a first nth cut
    end
  else Some (insertion_sort a first last).

(** [std::nth_element] *)
Definition nth_element (a : list elem) (nth : nat) : option (list elem) :=
  introselect (Nat.log2 (length a) * 2) a 0 nth (length a).

(** [std::sort] of the first [last] pairs, [last] at most 16 *)
Definition sort (a : list elem) (last : nat) : list elem :=
  insertion_sort a 0 last.

(** The loop body of [topk_impl_loop] for [largest] and [sorted]. *)
Definition topk_impl (xs : list Q) (k : nat) : option (list elem) :=
  let queue := zip xs (seq 0 (length xs)) in
  match k with
  | O => Some []
  | S k' =>
      if decide (16 < length xs)%nat then None
      else queue ← nth_element queue k'; Some (take k (sort queue k'))
  end.

(** [torch.topk(xs, k)]; outside the model the answer is that of a stable
    sort. *)
Definition torch_topk (xs : list Q) (k : Z) : result (list (Q * nat)) :=
  if decide (0 ≤ k ≤ Z.of_nat (length xs)) then
    match topk_impl xs (Z.to_nat k) with
    | Some hits => Ok hits
    | None => Toy.sorted_topk true xs k
    end
  else Raise RuntimeError.

(** The toy library with this [torch.topk]. *)
Definition library : Library := {|
  Vec := nat;
  str_lower := Toy.lower;
  sent_tokenize := Toy.split_sentences EmptyString;
  encode := String.length;
  encode_batch := mapM Toy.encode_cell;
  cos := Toy.ratio;
  topk := torch_topk;
|}.

End Kernel.

(** Five companies with the same sentence. *)
Definition five_rows : DataFrame :=
  {| columns := ["company_name"; "business_description"; "individual_sentences"];
     rows := [[CStr "Alpha"; CStr "It advises."; CStr "it advises."];
              [CStr "Beta"; CStr "It advises."; CStr "it advises."];
              [CStr "Gamma"; CStr "It advises."; CStr "it advises."];
              [CStr "Delta"; CStr "It advises."; CStr "it advises."];
              [CStr "Epsilon"; CStr "It advises."; CStr "it advises."]] |}.

(** A table of three sentence rows for the examples. *)
Definition three_rows : DataFrame :=
  {| columns := ["company_name"; "business_description"; "individual_sentences"];
     rows := [[CStr "Alpha Consulting"; CStr "It advises. It is old."; CStr "it advises."];
              [CStr "Beta Loans"; CStr "It offers consumer loans.";
               CStr "it offers consumer loans."];
              [CStr "Alpha Consulting"; CStr "It advises. It is old."; CStr "it is old."]] |}.

(** A file of two records, the second with a blank description. *)
Definition two_records : DataFrame :=
  {| columns := ["Company Name"; "Business Description"];
     rows := [[CStr "Acme"; CStr "It sells tea. It is old."];
              [CStr "Nil Corp"; CStr "   "]] |}.

(** A file of 25 records of one company and one record of a lender, and
    the table [load_data] makes of it. *)
Definition many_records : DataFrame :=
  {| columns := ["Company Name"; "Business Description"];
     rows := replicate 25 [CStr "Alpha Consulting"; CStr "It advises."]
             ++ [[CStr "Beta Loans"; CStr "It offers consumer loans."]] |}.

Definition many_rows : DataFrame :=
  {| columns := ["company_name"; "business_description";
                 "cleaned_description"; "individual_sentences"];
     rows := replicate 25 [CStr "Alpha Consulting"; CStr "It advises.";
                           CStr "it advises."; CStr "it advises."]
             ++ [[CStr "Beta Loans"; CStr "It offers consumer loans.";
                  CStr "it offers consumer loans."; CStr "it offers consumer loans."]] |}.

(** The rows of [three_rows] that are of "Alpha Consulting". *)
Definition alpha_rows : DataFrame :=
  {| columns := ["company_name"; "business_description"; "individual_sentences"];
     rows := [[CStr "Alpha Consulting"; CStr "It advises. It is old."; CStr "it advises."];
              [CStr "Alpha Consulting"; CStr "It advises. It is old."; CStr "it is old."]] |}.

(** A table whose first row has no company name. *)
Definition unnamed_rows : DataFrame :=
  {| columns := ["company_name"; "individual_sentences"];
     rows := [[CNaN; CStr "it offers consumer loans."];
              [CStr "Beta Loans"; CStr "it offers consumer loans."];
              [CStr "Alpha Consulting"; CStr "it advises."]] |}.

(** ** Reasoning about computations on the heap *)

Lemma bind_run {A B} (m : M A) (f : A → M B) (h : Heap) :
  (m ≫= f) h =
  match m h with
  | (Ok a, h') => f a h'
  | (Raise e, h') => (Raise e, h')
  end.
Proof. reflexivity. Qed.

Lemma fresh_loc_unused (h : Heap) : h !! fresh (dom h) = None.
Proof. apply not_elem_of_dom, is_fresh. Qed.

Lemma deref_run (l : loc) (h : Heap) (df : DataFrame) :
  h !! l = Some df → deref l h = (Ok df, h).
Proof. intros H. unfold deref. by rewrite H. Qed.

Lemma preserves_ret {A} (a : A) : preserves (mret a).
Proof. intros h. done. Qed.

Lemma preserves_lift {A} (r : result A) : preserves (lift r).
Proof. intros h. done. Qed.

Lemma preserves_deref (l : loc) : preserves (deref l).
Proof. intros h. unfold deref. by destruct (h !! l). Qed.

Lemma allocates_new (df : DataFrame) : allocates (new df).
Proof.
  intros h. unfold new. simpl. split.
  - apply insert_subseteq, fresh_loc_unused.
  - intros l [= <-]. split; [apply is_fresh|].
    apply elem_of_dom. rewrite lookup_insert_eq. by eexists.
Qed.

Lemma preserves_new (df : DataFrame) : preserves (new df).
Proof. intros h. apply allocates_new. Qed.

Lemma preserves_bind {A B} (m : M A) (f : A → M B) :
  preserves m → (∀ a, preserves (f a)) → preserves (m ≫= f).
Proof.
  intros Hm Hf h. rewrite bind_run. specialize (Hm h).
  destruct (m h) as [[a|e] h1]; simpl in *; [|done].
  etrans; [exact Hm|apply Hf].
Qed.

Lemma allocates_bind {A} (m : M A) (f : A → M loc) :
  preserves m → (∀ a, allocates (f a)) → allocates (m ≫= f).
Proof.
  intros Hm Hf h. rewrite bind_run. specialize (Hm h).
  destruct (m h) as [[a|e] h1]; simpl in *; [|split; [done|intros ? [=]]].
  destruct (Hf a h1) as [Hsub Hnew]. split.
  - by etrans.
  - intros l Hl. pose proof (Hnew l Hl) as [Hout Hin]. split; [|done].
    intros Hdom. apply Hout. by apply (subseteq_dom _ _ Hm).
Qed.

Lemma new_run (df : DataFrame) (h : Heap) :
  new df h = (Ok (fresh (dom h)), <[fresh (dom h) := df]> h).
Proof. reflexivity. Qed.

Lemma assign_run (l : loc) (df : DataFrame) (h : Heap) :
  assign l df h = (Ok (), <[l := df]> h).
Proof. reflexivity. Qed.

Lemma lift_run {A} (r : result A) (h : Heap) : lift r h = (r, h).
Proof. reflexivity. Qed.

Lemma deref_insert (l : loc) (df : DataFrame) (h : Heap) :
  deref l (<[l := df]> h) = (Ok df, <[l := df]> h).
Proof. apply deref_run, lookup_insert_eq. Qed.

(** One step of a run whose heap is known. *)
Ltac run_step :=
  rewrite bind_run;
  first [ rewrite new_run | rewrite assign_run | rewrite lift_run
        | rewrite deref_insert
        | erewrite deref_run by eassumption ].

Section Runs.
Context {L : Library}.

Lemma load_data_run csv h :
  match load_data_value csv with
  | Ok out => returns (load_data csv) h out
  | Raise e => raises (load_data csv) h e
  end.
Proof.
  unfold load_data, load_data_value, returns, raises.
  do 5 run_step.
  destruct (pd.getitem AttributeError _ _) as [description|e]; [|done].
  simpl. run_step.
  destruct (pd.str_map _ _) as [cleaned|e]; [|done].
  simpl. do 2 run_step. rewrite insert_insert_eq. run_step.
  destruct (pd.getitem TypeError _ _) as [cleaned'|e]; [|done].
  simpl. run_step.
  destruct (pd.apply _ _) as [sentences|e]; [|done].
  simpl. run_step. rewrite insert_insert_eq. do 2 run_step.
  destruct (pd.explode _ _) as [exploded|e]; [|done].
  simpl. repeat run_step. rewrite new_run.
  eexists _, _. split; [done|]. by rewrite lookup_insert_eq.
Qed.

Lemma filter_non_similar_at_run threshold df_expanded d non_similar_sentences h :
  h !! df_expanded = Some d →
  match filter_non_similar_value threshold d non_similar_sentences with
  | Ok out => returns (filter_non_similar_at threshold df_expanded non_similar_sentences) h out
  | Raise e => raises (filter_non_similar_at threshold df_expanded non_similar_sentences) h e
  end.
Proof.
  intros Hd.
  unfold filter_non_similar_at, filter_non_similar_value, returns, raises.
  run_step.
  destruct (encode_sentences _) as [non_similar_embeddings|e]; [|done].
  simpl. do 2 run_step.
  destruct (excluded_companies _ _ _) as [companies_to_exclude|e]; [|done].
  simpl. do 2 run_step.
  destruct (pd.getitem _ _ _) as [names|e]; [|done].
  simpl. run_step.
  destruct (pd.isin _ _) as [excluded|e]; [|done].
  simpl. repeat run_step. rewrite new_run.
  eexists _, _. split; [done|]. by rewrite lookup_insert_eq.
Qed.

Lemma find_top_similar_run input_texts bd_embeddings data d top_k h :
  h !! data = Some d →
  match find_top_similar_value input_texts bd_embeddings d top_k with
  | Ok out => returns (find_top_similar input_texts bd_embeddings data top_k) h out
  | Raise e => raises (find_top_similar input_texts bd_embeddings data top_k) h e
  end.
Proof.
  intros Hd.
  unfold find_top_similar, find_top_similar_value, query_scores, returns, raises.
  run_step.
  destruct (encode_sentences _) as [input_embeddings|e]; [|done].
  simpl. run_step.
  destruct (cos_sim _ _) as [scores|e]; [|done].
  simpl. run_step.
  destruct (first_row _) as [cosine_scores|e]; [|done].
  simpl. run_step.
  destruct (topk _ _) as [top_results|e]; [|done].
  simpl. do 2 run_step.
  destruct (mapM _ _) as [results|e]; [|done].
  simpl. rewrite new_run.
  eexists _, _. split; [done|]. by rewrite lookup_insert_eq.
Qed.

End Runs.

Create HintDb frame.
#[local] Hint Resolve preserves_ret preserves_lift preserves_deref
  preserves_new allocates_new : frame.

Ltac frame_step :=
  first [ apply allocates_bind; [|intros ?]
        | apply preserves_bind; [|intros ?] ];
  eauto with frame.

Section Frame.
Context {L : Library}.

Lemma filter_non_similar_at_allocates threshold df_expanded non_similar_sentences :
  allocates (filter_non_similar_at threshold df_expanded non_similar_sentences).
Proof. unfold filter_non_similar_at. repeat frame_step. Qed.

Lemma find_top_similar_allocates input_texts bd_embeddings data top_k :
  allocates (find_top_similar input_texts bd_embeddings data top_k).
Proof. unfold find_top_similar. repeat frame_step. Qed.

End Frame.

(** ** Lemmas on tables *)

Section Tables.
Implicit Types (cols : list string) (r : Row) (name : string) (v : cell).

Lemma cells_at_cons c cols v r name :
  pd.cells_at (c :: cols) (v :: r) name =
  if decide (c = name) then v :: pd.cells_at cols r name else pd.cells_at cols r name.
Proof.
  unfold pd.cells_at. simpl. rewrite filter_cons. simpl.
  by destruct (decide (c = name)).
Qed.

Lemma cells_at_absent cols r name : name ∉ cols → pd.cells_at cols r name = [].
Proof.
  revert r. induction cols as [|c cols IH]; intros [|v r] Hn; try done.
  rewrite cells_at_cons. apply not_elem_of_cons in Hn as [Hc Hn].
  rewrite decide_False by done. by apply IH.
Qed.

Lemma cells_at_app cols1 cols2 r1 r2 name :
  length r1 = length cols1 →
  pd.cells_at (cols1 ++ cols2) (r1 ++ r2) name =
  pd.cells_at cols1 r1 name ++ pd.cells_at cols2 r2 name.
Proof.
  intros Hlen. unfold pd.cells_at.
  rewrite zip_with_app by done. by rewrite filter_app, fmap_app.
Qed.

(** A label present once in a full row gives exactly one cell. *)
Lemma cells_at_unique cols r name :
  NoDup cols → name ∈ cols → length r = length cols →
  ∃ v, pd.cells_at cols r name = [v].
Proof.
  revert r. induction cols as [|c cols IH]; intros [|v r] Hnd Hin Hlen;
    try done; [by apply elem_of_nil in Hin|].
  apply NoDup_cons in Hnd as [Hc Hnd]. rewrite cells_at_cons.
  destruct (decide (c = name)) as [->|Hne].
  - exists v. by rewrite cells_at_absent.
  - apply elem_of_cons in Hin as [->|Hin]; [done|].
    apply IH; [done..|]. simpl in Hlen. lia.
Qed.

Lemma set_label_NoDup cols name : NoDup cols → NoDup (pd.set_label cols name).
Proof.
  intros Hnd. unfold pd.set_label. case_decide; [done|].
  apply NoDup_app. split_and!; [done| |apply NoDup_singleton].
  intros x Hx ->%list_elem_of_singleton. done.
Qed.

Lemma set_label_elem cols name : name ∈ pd.set_label cols name.
Proof. unfold pd.set_label. case_decide; [done|]. set_solver. Qed.

Lemma set_cell_length cols name v r :
  length r = length cols →
  length (pd.set_cell cols name v r) = length (pd.set_label cols name).
Proof.
  intros Hlen. unfold pd.set_cell, pd.set_label. case_decide.
  - rewrite length_zip_with. lia.
  - rewrite !length_app. simpl. lia.
Qed.

Lemma cells_at_replace cols r name name' v :
  pd.cells_at cols (zip_with (λ c old, if decide (c = name) then v else old) cols r) name' =
  if decide (name' = name) then (λ _, v) <$> pd.cells_at cols r name
  else pd.cells_at cols r name'.
Proof.
  revert r. induction cols as [|c cols IH]; intros [|w r]; simpl;
    try (by case_decide).
  rewrite !cells_at_cons, IH.
  repeat case_decide; simplify_eq; done.
Qed.

(** After [row[name] = v] the row has [v] under [name] ... *)
Lemma cells_at_set_cell cols r name v :
  NoDup cols → length r = length cols →
  pd.cells_at (pd.set_label cols name) (pd.set_cell cols name v r) name = [v].
Proof.
  intros Hnd Hlen. unfold pd.set_label, pd.set_cell.
  destruct (decide (name ∈ cols)) as [Hin|Hout].
  - rewrite cells_at_replace, decide_True by done.
    by destruct (cells_at_unique cols r name) as [w ->].
  - rewrite cells_at_app by done. by rewrite cells_at_absent, cells_at_cons, decide_True.
Qed.

(** ... and what it had under every other label. *)
Lemma cells_at_set_cell_ne cols r name name' v :
  name' ≠ name → length r = length cols →
  pd.cells_at (pd.set_label cols name) (pd.set_cell cols name v r) name' =
  pd.cells_at cols r name'.
Proof.
  intros Hne Hlen. unfold pd.set_label, pd.set_cell.
  destruct (decide (name ∈ cols)) as [Hin|Hout].
  - by rewrite cells_at_replace, decide_False.
  - rewrite cells_at_app by done.
    rewrite cells_at_cons, decide_False by done. apply app_nil_r.
Qed.

(** Relabelling [old] as [new], when [new] is not yet a label. *)
Lemma cells_at_rename_new cols r (old new : string) :
  new ∉ cols →
  pd.cells_at ((λ c, default c (({[ old := new ]} : gmap string string) !! c)) <$> cols)
    r new = pd.cells_at cols r old.
Proof.
  revert r. induction cols as [|c cols IH]; intros [|v r] Hn; try done.
  apply not_elem_of_cons in Hn as [Hc Hn]. simpl.
  rewrite !cells_at_cons, IH by done.
  destruct (decide (c = old)) as [->|Hne].
  - by rewrite lookup_singleton_eq, decide_True.
  - rewrite lookup_singleton_ne by done. simpl. by rewrite decide_False.
Qed.

Lemma cells_at_rename_other cols r (old new name : string) :
  name ≠ old → name ≠ new →
  pd.cells_at ((λ c, default c (({[ old := new ]} : gmap string string) !! c)) <$> cols)
    r name = pd.cells_at cols r name.
Proof.
  intros Ho Hn. revert r. induction cols as [|c cols IH]; intros [|v r]; try done.
  simpl. rewrite !cells_at_cons, IH.
  destruct (decide (c = old)) as [->|Hne].
  - rewrite lookup_singleton_eq. simpl. by rewrite !decide_False.
  - by rewrite lookup_singleton_ne.
Qed.

Lemma mapM_ok {A B} (f : A → result B) (g : A → B) (xs : list A) :
  Forall (λ x, f x = Ok (g x)) xs → mapM f xs = Ok (g <$> xs).
Proof.
  induction 1 as [|x xs Hx _ IH]; [done|].
  simpl. rewrite Hx. simpl. by rewrite IH.
Qed.

Lemma filter_eq_absent cols name :
  name ∉ cols → filter (λ c, c = name) cols = [].
Proof.
  induction cols as [|c cols IH]; [done|].
  intros [Hc Hn]%not_elem_of_cons.
  rewrite filter_cons_False by done. by apply IH.
Qed.

Lemma filter_eq_unique cols name :
  NoDup cols → name ∈ cols → filter (λ c, c = name) cols = [name].
Proof.
  induction 1 as [|c cols Hc Hnd IH]; intros Hin; [by apply elem_of_nil in Hin|].
  rewrite filter_cons. destruct (decide (c = name)) as [->|Hne].
  - by rewrite filter_eq_absent.
  - apply elem_of_cons in Hin as [->|Hin]; [done|]. by apply IH.
Qed.

(** [df[name]] on a table where the label is present once. *)
Lemma getitem_unique dup (df : DataFrame) name :
  NoDup (columns df) → name ∈ columns df →
  pd.getitem dup df name = Ok ((λ r, pd.cell_at (columns df) r name) <$> rows df).
Proof.
  intros Hnd Hin. unfold pd.getitem. by rewrite filter_eq_unique.
Qed.

Lemma getitem_absent dup (df : DataFrame) name :
  name ∉ columns df → pd.getitem dup df name = Raise KeyError.
Proof. intros Hn. unfold pd.getitem. by rewrite filter_eq_absent. Qed.

Lemma str_map_strings (f : string → string) (col : list cell) :
  Forall (λ c, is_str c = true) col → pd.str_map f col = Ok (pd.str_cell f <$> col).
Proof.
  intros Hcol. unfold pd.str_map. destruct col as [|c col]; [done|].
  apply Forall_cons in Hcol as [Hc _]. destruct c; try done.
Qed.

Lemma explode_ok (df : DataFrame) name :
  NoDup (columns df) → name ∈ columns df →
  pd.explode df name =
  Ok {| columns := columns df; rows := rows df ≫= pd.explode_row (columns df) name |}.
Proof. intros Hnd Hin. unfold pd.explode. by rewrite !decide_True. Qed.

(** [df[mask]] with a mask computed row by row. *)
Lemma getitem_mask_fmap (df : DataFrame) (keep : Row → bool) :
  pd.getitem_mask df (keep <$> rows df) =
  {| columns := columns df; rows := filter (λ r, keep r = true) (rows df) |}.
Proof.
  unfold pd.getitem_mask. f_equal.
  induction (rows df) as [|r rs IH]; [done|].
  simpl. rewrite !filter_cons. simpl. destruct (keep r) eqn:Hk.
  - rewrite decide_True by done. simpl. by f_equal.
  - by rewrite decide_False by done.
Qed.

End Tables.

(** ** The preprocessor *)

Section Load.
Context {L : Library}.

Lemma apply_sentences (col : list cell) :
  Forall (λ c, is_str c = true) col →
  pd.apply sent_tokenize col = Ok (sentences_cell <$> col).
Proof.
  intros Hcol. unfold pd.apply. apply mapM_ok.
  eapply Forall_impl; [exact Hcol|]. by intros [] ?.
Qed.

Lemma cell_at_one cols r name v :
  pd.cells_at cols r name = [v] → pd.cell_at cols r name = v.
Proof. unfold pd.cell_at. by intros ->. Qed.

(** The table [load_data] returns on a table with a text column of
    descriptions. *)
Lemma load_data_value_ok (csv : DataFrame) :
  let d1 := pd.rename load_columns csv in
  well_formed d1 → text_column d1 "business_description" →
  load_data_value csv = Ok {|
    columns := (λ c, default c (({[ "sentences" := "individual_sentences" ]}
                                  : gmap string string) !! c)) <$>
               pd.set_label (pd.set_label (columns d1) "cleaned_description") "sentences";
    rows := rows csv ≫= record_rows (columns d1) |}.
Proof.
  intros d1 [Hnd Hlen] [Hin Htext]. unfold load_data_value. fold d1.
  rewrite getitem_unique by done. simpl.
  rewrite str_map_strings; last first.
  { apply Forall_fmap. eapply Forall_impl; [exact Htext|].
    intros r [s Hs%cell_at_one]. unfold compose. simpl in *. by rewrite Hs. }
  simpl. rewrite getitem_unique; simpl;
    [|by apply set_label_NoDup|by apply set_label_elem].
  rewrite zip_with_fmap_l, zip_with_fmap_l, zip_with_diag.
  rewrite apply_sentences; last first.
  { rewrite <-list_fmap_compose. apply Forall_fmap.
    apply Forall_forall. intros r Hr. unfold compose.
    rewrite Forall_forall in Htext, Hlen.
    destruct (Htext r Hr) as [s Hs%cell_at_one].
    pose proof (cells_at_set_cell (columns d1) r "cleaned_description"
      (pd.str_cell str_lower (pd.cell_at (columns d1) r "business_description"))
      Hnd (Hlen r Hr)) as Hc%cell_at_one.
    simpl in *. rewrite Hc, Hs. done. }
  simpl. rewrite explode_ok; simpl;
    [|by do 2 apply set_label_NoDup|by apply set_label_elem].
  unfold pd.reset_index, pd.rename. simpl. do 2 f_equal.
  clear. induction (rows csv) as [|r rs IH]; [done|].
  csimpl. by rewrite IH.
Qed.

Lemma set_label_idem cols name : name ∈ cols → pd.set_label cols name = cols.
Proof. intros Hin. unfold pd.set_label. by rewrite decide_True. Qed.

Lemma concat_fmap_bind {A B} (f : A → list B) (l : list A) :
  concat (f <$> l) = l ≫= f.
Proof. induction l as [|x l IH]; [done|]. csimpl. by rewrite IH. Qed.

(** A record whose description has no sentence becomes one row, with
    NaN for the sentence and the other cells kept. *)
Lemma record_rows_no_sentence cols r s :
  NoDup cols → length r = length cols →
  pd.cells_at cols r "business_description" = [CStr s] →
  sent_tokenize (str_lower s) = [] →
  let cols3 := pd.set_label (pd.set_label cols "cleaned_description") "sentences" in
  ∃ r', record_rows cols r = [r']
    ∧ pd.cells_at cols3 r' "sentences" = [CNaN]
    ∧ ∀ name, name ≠ "sentences" → name ≠ "cleaned_description" →
        pd.cells_at cols3 r' name = pd.cells_at cols r name.
Proof.
  intros Hnd Hlen Hs%cell_at_one Htok cols3. unfold record_rows.
  rewrite Hs. simpl pd.str_cell.
  set (cols2 := pd.set_label cols "cleaned_description").
  set (r2 := pd.set_cell cols "cleaned_description" (CStr (str_lower s)) r).
  assert (NoDup cols2) as Hnd2 by by apply set_label_NoDup.
  assert (length r2 = length cols2) as Hlen2 by by apply set_cell_length.
  rewrite (cell_at_one cols2 r2 _ (CStr (str_lower s)))
    by by apply cells_at_set_cell.
  simpl sentences_cell. rewrite Htok. simpl.
  set (r3 := pd.set_cell cols2 "sentences" (CList []) r2).
  fold cols3.
  assert (NoDup cols3) as Hnd3 by by apply set_label_NoDup.
  assert (length r3 = length cols3) as Hlen3 by by apply set_cell_length.
  assert ("sentences" ∈ cols3) as Hin3 by apply set_label_elem.
  unfold pd.explode_row.
  rewrite (cell_at_one cols3 r3 _ (CList [])) by by apply cells_at_set_cell.
  eexists. split; [done|]. split.
  - rewrite <-(set_label_idem cols3 "sentences") at 1 by done.
    by apply cells_at_set_cell.
  - intros name Hn1 Hn2.
    rewrite <-(set_label_idem cols3 "sentences") at 1 by done.
    rewrite cells_at_set_cell_ne by done.
    unfold cols3, r3. rewrite cells_at_set_cell_ne by done.
    unfold cols2, r2. by rewrite cells_at_set_cell_ne.
Qed.

Lemma load_columns_lookup (c : string) :
  load_columns !! c =
  if decide (c = "Company Name") then Some "company_name"
  else if decide (c = "Business Description") then Some "business_description"
  else None.
Proof.
  unfold load_columns. repeat case_decide; subst; simplify_map_eq; done.
Qed.

End Load.

(** ** Claims about the preprocessor *)

Section LoadClaims.
Context {L : Library}.

(** C4, as amended: a record whose description yields zero sentences is
    not dropped.  On a table with unique labels and a text column of
    descriptions, [load_data] returns; its rows are the rows made of each
    record, record after record; and a record with no sentence
    contributes exactly one row, which has NaN in place of the sentence
    and the record's company name. *)
Theorem load_data_no_sentence_row (csv : DataFrame) (h : Heap) :
  well_formed (pd.rename load_columns csv) →
  text_column (pd.rename load_columns csv) "business_description" →
  "individual_sentences" ∉ columns (pd.rename load_columns csv) →
  ∃ out parts,
    returns (load_data csv) h out
    ∧ rows out = concat parts
    ∧ length parts = length (rows csv)
    ∧ ∀ i r s,
        rows csv !! i = Some r →
        pd.cells_at (columns (pd.rename load_columns csv)) r "business_description"
          = [CStr s] →
        sent_tokenize (str_lower s) = [] →
        ∃ r', parts !! i = Some [r']
          ∧ pd.row_getitem (columns out) r' "individual_sentences" = Ok CNaN
          ∧ pd.row_getitem (columns out) r' "company_name"
            = pd.row_getitem (columns (pd.rename load_columns csv)) r "company_name".
Proof.
  set (d1 := pd.rename load_columns csv).
  intros Hwf Htext Hfree.
  pose proof (load_data_run csv h) as Hrun.
  rewrite (load_data_value_ok csv Hwf Htext) in Hrun. fold d1 in Hrun.
  eexists _, (record_rows (columns d1) <$> rows csv).
  split; [exact Hrun|]. split; [by rewrite concat_fmap_bind|].
  split; [by rewrite length_fmap|].
  intros i r s Hi Hs Htok. destruct Hwf as [Hnd Hlen].
  assert (length r = length (columns d1)) as Hr.
  { rewrite Forall_forall in Hlen. apply Hlen.
    by apply list_elem_of_lookup_2 in Hi. }
  destruct (record_rows_no_sentence (columns d1) r s Hnd Hr Hs Htok)
    as (r' & Hrows & Hnan & Hkeep).
  exists r'. split; [by rewrite list_lookup_fmap, Hi, <-Hrows|].
  cbn [columns]. unfold pd.row_getitem. split.
  - rewrite cells_at_rename_new, Hnan; [done|].
    unfold pd.set_label. repeat case_decide; set_solver.
  - by rewrite cells_at_rename_other, Hkeep.
Qed.

(** C8, as amended: a table with no description column, under the raw
    label or the renamed one, is rejected with [KeyError]. *)
Theorem load_data_needs_description (csv : DataFrame) (h : Heap) :
  "Business Description" ∉ columns csv →
  "business_description" ∉ columns csv →
  raises (load_data csv) h KeyError.
Proof.
  intros Hraw Hnew. pose proof (load_data_run csv h) as Hrun.
  unfold load_data_value in Hrun. rewrite getitem_absent in Hrun; [done|].
  simpl. intros (c & Hc & Hin)%list_elem_of_fmap.
  rewrite load_columns_lookup in Hc. repeat case_decide; simplify_eq/=; done.
Qed.

End LoadClaims.

(** C4, witness: a table with a blank description. *)
Lemma load_data_no_sentence_row_witness :
  let csv := {| columns := ["Company Name"; "Business Description"];
                rows := [[CStr "Acme"; CStr "It sells tea. It is old."];
                         [CStr "Nil Corp"; CStr "   "]] |} in
  ∃ out parts,
    returns (load_data (L := Toy.library true) csv) ∅ out
    ∧ rows out = concat parts
    ∧ length parts = length (rows csv)
    ∧ ∀ i r s,
        rows csv !! i = Some r →
        pd.cells_at (columns (pd.rename load_columns csv)) r "business_description"
          = [CStr s] →
        Toy.split_sentences EmptyString (Toy.lower s) = [] →
        ∃ r', parts !! i = Some [r']
          ∧ pd.row_getitem (columns out) r' "individual_sentences" = Ok CNaN
          ∧ pd.row_getitem (columns out) r' "company_name"
            = pd.row_getitem (columns (pd.rename load_columns csv)) r "company_name".
Proof.
  apply (load_data_no_sentence_row (L := Toy.library true)).
  - split; compute_done.
  - split; [compute_done|]. repeat constructor; by eexists.
  - compute_done.
Defined.

(** C4, counterexample: the record of "Nil Corp" has a blank description,
    in which the tokenizer finds no sentence; the returned table still has
    a row for it. *)
Lemma blank_description_keeps_a_row :
  let csv := {| columns := ["Company Name"; "Business Description"];
                rows := [[CStr "Nil Corp"; CStr "   "]] |} in
  @sent_tokenize (Toy.library true) (@str_lower (Toy.library true) "   ") = []
  ∧ returns (load_data (L := Toy.library true) csv) ∅
      {| columns := ["company_name"; "business_description";
                     "cleaned_description"; "individual_sentences"];
         rows := [[CStr "Nil Corp"; CStr "   "; CStr "   "; CNaN]] |}.
Proof.
  intros csv. split; [reflexivity|].
  pose proof (load_data_run (L := Toy.library true) csv ∅) as Hrun.
  by vm_compute load_data_value in Hrun.
Qed.

(** C8, witness: a table with company names only. *)
Lemma load_data_needs_description_witness :
  raises (load_data (L := Toy.library true)
            {| columns := ["Company Name"]; rows := [[CStr "Acme"]] |}) ∅ KeyError.
Proof.
  apply (load_data_needs_description (L := Toy.library true)); compute_done.
Defined.

(** C8, counterexample: the table has no "Company Name" column and
    [load_data] returns a table all the same. *)
Lemma load_data_without_company_name :
  let csv := {| columns := ["Business Description"];
                rows := [[CStr "It sells tea."]] |} in
  ("Company Name" ∉ columns csv)
  ∧ returns (load_data (L := Toy.library true) csv) ∅
      {| columns := ["business_description"; "cleaned_description";
                     "individual_sentences"];
         rows := [[CStr "It sells tea."; CStr "it sells tea."; CStr "it sells tea."]] |}.
Proof.
  intros csv. split; [compute_done|].
  pose proof (load_data_run (L := Toy.library true) csv ∅) as Hrun.
  by vm_compute load_data_value in Hrun.
Qed.

(** ** The filter *)

Section Scores.

Lemma Qmax_ge (t x y : Q) : (t <= Qmax x y)%Q ↔ (t <= x)%Q ∨ (t <= y)%Q.
Proof.
  unfold Qmax. destruct (decide (x <= y)%Q) as [Hxy|Hxy].
  - split; [by right|]. intros [Hx|Hy]; [|done]. by eapply Qle_trans.
  - apply Qnot_le_lt in Hxy. split; [by left|].
    intros [Hx|Hy]; [done|]. eapply Qle_trans; [exact Hy|]. by apply Qlt_le_weak.
Qed.

Lemma foldl_Qmax_ge (t x : Q) (ys : list Q) :
  (t <= foldl Qmax x ys)%Q ↔ Exists (λ y, (t <= y)%Q) (x :: ys).
Proof.
  revert x. induction ys as [|y ys IH]; intros x; simpl.
  - rewrite Exists_cons, Exists_nil. tauto.
  - rewrite IH, !Exists_cons, Qmax_ge. tauto.
Qed.

End Scores.

Section Filter.
Context {L : Library}.

Lemma is_similar_nil embedding threshold :
  is_similar_to_non_similar embedding [] threshold = Raise RuntimeError.
Proof. reflexivity. Qed.

Lemma is_similar_ok embedding non_similar_embeddings threshold :
  non_similar_embeddings ≠ [] →
  is_similar_to_non_similar embedding non_similar_embeddings threshold =
  Ok (bool_decide
        (Exists (λ x, (threshold <= cos embedding x)%Q) non_similar_embeddings)).
Proof.
  destruct non_similar_embeddings as [|x xs]; [done|]. intros _.
  unfold is_similar_to_non_similar. simpl. f_equal.
  apply bool_decide_ext. rewrite foldl_Qmax_ge.
  apply (Exists_fmap (cos embedding) (λ y, (threshold <= y)%Q) (x :: xs)).
Qed.

Lemma any_similar_ok embeddings non_similar_embeddings threshold :
  non_similar_embeddings ≠ [] →
  any_similar embeddings non_similar_embeddings threshold =
  Ok (bool_decide
        (Exists (λ e, Exists (λ x, (threshold <= cos e x)%Q) non_similar_embeddings)
                embeddings)).
Proof.
  intros Hne. induction embeddings as [|e es IH]; [done|].
  cbn [any_similar]. rewrite is_similar_ok by done.
  cbn [mbind result_bind].
  destruct (decide (Exists (λ x, (threshold <= cos e x)%Q) non_similar_embeddings))
    as [He|He].
  - rewrite (bool_decide_eq_true_2 _ He). f_equal. symmetry.
    apply bool_decide_eq_true. by left.
  - rewrite (bool_decide_eq_false_2 _ He), IH. f_equal.
    apply bool_decide_ext. rewrite Exists_cons. tauto.
Qed.

Lemma any_similar_nil_r e es threshold :
  any_similar (e :: es) [] threshold = Raise RuntimeError.
Proof. reflexivity. Qed.

(** Raising the threshold can only turn a hit into a miss; whether the
    loop raises does not depend on the threshold. *)
Lemma any_similar_antitone embeddings non_similar_embeddings t1 t2 :
  (t1 <= t2)%Q →
  match any_similar embeddings non_similar_embeddings t1,
        any_similar embeddings non_similar_embeddings t2 with
  | Ok b1, Ok b2 => b2 = true → b1 = true
  | Raise e1, Raise e2 => e1 = e2
  | _, _ => False
  end.
Proof.
  intros Ht. destruct non_similar_embeddings as [|x xs].
  - by destruct embeddings.
  - rewrite !any_similar_ok by done.
    intros H%bool_decide_eq_true. apply bool_decide_eq_true.
    eapply Exists_impl; [exact H|]. intros e He. simpl in He.
    eapply Exists_impl; [exact He|]. intros y Hy. simpl in Hy.
    by eapply Qle_trans.
Qed.

Lemma scan_groups_antitone non_similar_embeddings t1 t2 grouped (s1 s2 : gset key) :
  (t1 <= t2)%Q → s2 ⊆ s1 →
  match scan_groups non_similar_embeddings t1 s1 grouped,
        scan_groups non_similar_embeddings t2 s2 grouped with
  | Ok s1', Ok s2' => s2' ⊆ s1'
  | Raise e1, Raise e2 => e1 = e2
  | _, _ => False
  end.
Proof.
  intros Ht. revert s1 s2. induction grouped as [|g gs IH]; intros s1 s2 Hs; [done|].
  simpl. unfold scan_group.
  destruct (pd.getitem _ _ _) as [sentences|e]; [|done]. simpl.
  destruct (encode_sentences _) as [embeddings|e]; [|done]. simpl.
  pose proof (any_similar_antitone embeddings non_similar_embeddings t1 t2 Ht) as Hb.
  destruct (any_similar _ _ t1) as [b1|e1], (any_similar _ _ t2) as [b2|e2];
    try done. simpl.
  apply IH. destruct b2; [rewrite Hb by done|destruct b1]; set_solver.
Qed.

(** *** Grouping *)

Lemma text_column_cell (d : DataFrame) name r :
  text_column d name → r ∈ rows d →
  ∃ s, pd.cell_at (columns d) r name = CStr s.
Proof.
  intros [_ Htext] Hr. rewrite Forall_forall in Htext.
  destruct (Htext r Hr) as [s Hs]. exists s. by apply cell_at_one.
Qed.

Lemma group_rows_fmap (f : Row → option key) (rs : list Row) (k : key) :
  pd.group_rows (f <$> rs) rs k = filter (λ r, f r = Some k) rs.
Proof.
  unfold pd.group_rows. induction rs as [|r rs IH]; [done|].
  rewrite fmap_cons. cbn [zip_with]. rewrite !filter_cons. cbn [fst].
  destruct (decide (f r = Some k)); [rewrite fmap_cons; cbn [snd]|]; by rewrite IH.
Qed.

Lemma elem_of_group_keys (f : Row → option key) (rs : list Row) (k : key) :
  k ∈ merge_sort key_le (remove_dups (omap id (f <$> rs))) ↔
  Exists (λ r, f r = Some k) rs.
Proof.
  rewrite merge_sort_Permutation, elem_of_remove_dups, list_elem_of_omap, Exists_exists.
  split.
  - intros (o & (r & -> & Hr)%list_elem_of_fmap & Ho). by exists r.
  - intros (r & Hr & Hk). exists (f r). split; [by apply list_elem_of_fmap_2|done].
Qed.

Lemma groupby_company (d : DataFrame) :
  well_formed d → text_column d "company_name" →
  pd.groupby d "company_name" =
  Ok ((λ k, (k, {| columns := columns d;
                   rows := filter (λ r, row_key (columns d) r = Some k) (rows d) |}))
      <$> merge_sort key_le (remove_dups (omap id (row_key (columns d) <$> rows d)))).
Proof.
  intros [Hnd Hlen] Htext. unfold pd.groupby.
  rewrite getitem_unique by (done || apply Htext). simpl.
  rewrite (mapM_ok _ (λ c, KStr <$> cell_str c)); last first.
  { apply Forall_fmap, Forall_forall. intros r Hr. unfold compose.
    by destruct (text_column_cell d _ r Htext Hr) as [s ->]. }
  simpl. rewrite <-list_fmap_compose.
  change ((λ c, KStr <$> cell_str c) ∘ _) with (row_key (columns d)).
  f_equal. apply list_fmap_ext. intros _ k _. by rewrite group_rows_fmap.
Qed.

(** *** The loop over the groups *)

Context {HL : LibraryLaws L}.

Lemma encode_sentences_str (ss : list string) :
  encode_sentences (CStr <$> ss) = Ok (encode <$> ss).
Proof. apply encode_batch_str. Qed.

Lemma scan_group_ok ns threshold (s : gset key) (k : key) (d : DataFrame) rs :
  well_formed d → text_column d "individual_sentences" → ns ≠ [] →
  rs ⊆ rows d →
  scan_group (encode <$> ns) threshold s (k, {| columns := columns d; rows := rs |}) =
  Ok (if bool_decide (Exists (row_flagged threshold ns (columns d)) rs)
      then {[ k ]} ∪ s else s).
Proof.
  intros [Hnd Hlen] Htext Hns Hrs. unfold scan_group. cbn [fst snd].
  rewrite getitem_unique by (done || apply Htext). cbn [columns rows mbind result_bind].
  assert ((λ r, pd.cell_at (columns d) r "individual_sentences") <$> rs =
          CStr <$> ((λ r, default EmptyString (row_sentence (columns d) r)) <$> rs))
    as ->.
  { rewrite <-list_fmap_compose. apply list_fmap_ext. intros _ r Hr%list_elem_of_lookup_2.
    unfold compose, row_sentence.
    by destruct (text_column_cell d _ r Htext (Hrs r Hr)) as [x ->]. }
  rewrite encode_sentences_str. cbn [mbind result_bind].
  rewrite any_similar_ok by by destruct ns.
  cbn [mbind result_bind]. f_equal.
  assert (Exists (λ e, Exists (λ x, (threshold <= cos e x)%Q) (encode <$> ns))
            (encode <$> ((λ r, default EmptyString (row_sentence (columns d) r)) <$> rs))
          ↔ Exists (row_flagged threshold ns (columns d)) rs) as Hiff;
    [|by rewrite (bool_decide_ext _ _ Hiff)].
  rewrite <-list_fmap_compose, Exists_fmap, !Exists_exists.
  enough (∀ r, r ∈ rs →
            ((λ e, Exists (λ x, (threshold <= cos e x)%Q) (encode <$> ns))
               ∘ (encode ∘ λ r, default EmptyString (row_sentence (columns d) r))) r
            ↔ row_flagged threshold ns (columns d) r) as Hpt.
  { split; intros (r & Hr & H); exists r; (split; [done|]); by apply (Hpt r Hr). }
  intros r Hr. unfold compose, row_flagged, sentence_flagged, row_sentence.
  destruct (text_column_cell d _ r Htext (Hrs r Hr)) as [x ->]. simpl.
  rewrite Exists_fmap. split; [by eauto|]. by intros (? & [= <-] & ?).
Qed.

Lemma scan_groups_ok ns threshold (d : DataFrame) (ks : list key) (s : gset key) :
  well_formed d → text_column d "individual_sentences" → ns ≠ [] →
  let group k := filter (λ r, row_key (columns d) r = Some k) (rows d) in
  scan_groups (encode <$> ns) threshold s
    ((λ k, (k, {| columns := columns d; rows := group k |})) <$> ks) =
  Ok (s ∪ list_to_set
            (filter (λ k, Exists (row_flagged threshold ns (columns d)) (group k)) ks)).
Proof.
  intros Hwf Htext Hns group. revert s.
  induction ks as [|k ks IH]; intros s.
  - simpl. f_equal. set_solver.
  - rewrite fmap_cons. cbn [scan_groups].
    rewrite scan_group_ok; [|done..|].
    2:{ intros r [_ Hr]%list_elem_of_filter. done. }
    cbn [mbind result_bind]. rewrite IH, filter_cons. f_equal.
    destruct (decide (Exists _ (group k))) as [Hk|Hk].
    + rewrite (bool_decide_eq_true_2 _ Hk). set_solver.
    + by rewrite (bool_decide_eq_false_2 _ Hk).
Qed.

(** The excluded set holds exactly the companies with a flagged sentence. *)
Lemma excluded_companies_ok ns threshold (d : DataFrame) :
  well_formed d → text_column d "company_name" →
  text_column d "individual_sentences" → ns ≠ [] →
  ∃ companies_to_exclude,
    excluded_companies threshold d (encode <$> ns) = Ok companies_to_exclude
    ∧ ∀ c, KStr c ∈ companies_to_exclude ↔ company_flagged threshold ns d c.
Proof.
  intros Hwf Hname Htext Hns. unfold excluded_companies.
  rewrite groupby_company by done. cbn [mbind result_bind].
  rewrite scan_groups_ok by done. eexists. split; [done|].
  intros c. rewrite elem_of_union, elem_of_list_to_set, list_elem_of_filter,
    elem_of_group_keys.
  unfold company_flagged. rewrite !Exists_exists. split.
  - intros [[]%elem_of_empty|[(r & [Hk Hr]%list_elem_of_filter & Hf) _]].
    exists r. split; [done|]. split; [|done].
    unfold row_key in Hk. by destruct (row_company _ r); simplify_eq/=.
  - intros (r & Hr & Hc & Hf). right. split.
    + exists r. split; [|done]. apply list_elem_of_filter. split; [|done].
      unfold row_key. by rewrite Hc.
    + exists r. split; [done|]. unfold row_key. by rewrite Hc.
Qed.


(** *** The returned table *)

Lemma isin_company (d : DataFrame) (values : gset key) :
  text_column d "company_name" →
  pd.isin ((λ r, pd.cell_at (columns d) r "company_name") <$> rows d) values =
  Ok ((λ r, match row_key (columns d) r with
            | Some k => bool_decide (k ∈ values)
            | None => false
            end) <$> rows d).
Proof.
  intros Htext. unfold pd.isin.
  rewrite (mapM_ok _ (λ c, match KStr <$> cell_str c with
                           | Some k => bool_decide (k ∈ values)
                           | None => false
                           end)).
  - by rewrite <-list_fmap_compose.
  - apply Forall_fmap, Forall_forall. intros r Hr. unfold compose.
    by destruct (text_column_cell d _ r Htext Hr) as [x ->].
Qed.

Lemma filter_non_similar_value_ok threshold (d : DataFrame) ns :
  well_formed d → text_column d "company_name" →
  text_column d "individual_sentences" → ns ≠ [] →
  filter_non_similar_value threshold d ns =
  Ok {| columns := columns d; rows := filter (kept threshold ns d) (rows d) |}.
Proof.
  intros Hwf Hname Htext Hns. unfold filter_non_similar_value.
  rewrite encode_sentences_str. cbn [mbind result_bind].
  destruct (excluded_companies_ok ns threshold d) as (S & -> & HS); [done..|].
  cbn [mbind result_bind].
  rewrite getitem_unique by (apply Hwf || apply Hname). cbn [mbind result_bind].
  rewrite isin_company by done. cbn [mbind result_bind].
  rewrite <-list_fmap_compose, getitem_mask_fmap. unfold pd.reset_index.
  do 2 f_equal. apply list_filter_iff. intros r. unfold compose, kept, row_key.
  destruct (row_company (columns d) r) as [c|]; simpl.
  - rewrite negb_true_iff, bool_decide_eq_false, HS. split.
    + by intros Hc ? [= <-].
    + intros Hk. by apply Hk.
  - split; [|done]. by intros _ ? [=].
Qed.

(** With no excluded sentence the first group already fails. *)
Lemma scan_groups_nil threshold (d : DataFrame) (k : key) (ks : list key) (s : gset key) :
  well_formed d → text_column d "individual_sentences" →
  let group k := filter (λ r, row_key (columns d) r = Some k) (rows d) in
  group k ≠ [] →
  scan_groups [] threshold s
    ((λ k, (k, {| columns := columns d; rows := group k |})) <$> k :: ks) =
  Raise RuntimeError.
Proof.
  intros [Hnd Hlen] Htext group Hk. rewrite fmap_cons. cbn [scan_groups].
  unfold scan_group. cbn [fst snd].
  rewrite getitem_unique by (done || apply Htext). cbn [columns rows mbind result_bind].
  assert ((λ r, pd.cell_at (columns d) r "individual_sentences") <$> group k =
          CStr <$> ((λ r, default EmptyString (row_sentence (columns d) r)) <$> group k))
    as ->.
  { rewrite <-list_fmap_compose. apply list_fmap_ext.
    intros _ r [_ Hr]%list_elem_of_lookup_2%list_elem_of_filter.
    unfold compose, row_sentence.
    by destruct (text_column_cell d _ r Htext Hr) as [x ->]. }
  rewrite encode_sentences_str. cbn [mbind result_bind].
  by destruct (group k).
Qed.

End Filter.

(** ** Claims about the filter *)

Section FilterClaims.
Context {L : Library} {HL : LibraryLaws L}.

(** C1, as amended: for every table with unique labels whose company
    names and sentences are strings, every non-empty list of excluded
    sentences and every threshold given to [is_similar_to_non_similar],
    the filter returns the rows whose company has no sentence scoring
    the threshold or more against an excluded sentence, in their
    original order.  The call in the source gives no threshold, which
    makes it 0.6. *)
Theorem filter_non_similar_keeps_unflagged
    (threshold : Q) (df_expanded : loc) (d : DataFrame) (ns : list string) (h : Heap) :
  h !! df_expanded = Some d →
  well_formed d →
  text_column d "company_name" →
  text_column d "individual_sentences" →
  ns ≠ [] →
  returns (filter_non_similar_at threshold df_expanded ns) h
    {| columns := columns d; rows := filter (kept threshold ns d) (rows d) |}
  ∧ returns (filter_non_similar df_expanded ns) h
    {| columns := columns d; rows := filter (kept threshold_default ns d) (rows d) |}.
Proof.
  intros Hd Hwf Hname Htext Hns. split.
  - pose proof (filter_non_similar_at_run threshold df_expanded d ns h Hd) as Hrun.
    by rewrite filter_non_similar_value_ok in Hrun.
  - pose proof (filter_non_similar_at_run threshold_default df_expanded d ns h Hd) as Hrun.
    by rewrite filter_non_similar_value_ok in Hrun.
Qed.

(** C3, as amended: with an empty list of excluded sentences the filter
    returns the table unchanged only when the table has no rows; when it
    has rows, the similarity of the first sentence against zero
    reference sentences raises [RuntimeError]. *)
Theorem filter_non_similar_empty_list
    (df_expanded : loc) (d : DataFrame) (h : Heap) :
  h !! df_expanded = Some d →
  well_formed d →
  text_column d "company_name" →
  text_column d "individual_sentences" →
  match rows d with
  | [] => returns (filter_non_similar df_expanded []) h d
  | _ :: _ => raises (filter_non_similar df_expanded []) h RuntimeError
  end.
Proof.
  intros Hd Hwf Hname Htext.
  pose proof (filter_non_similar_at_run threshold_default df_expanded d [] h Hd) as Hrun.
  unfold filter_non_similar_value in Hrun.
  rewrite (encode_sentences_str []) in Hrun. cbn [mbind result_bind fmap list_fmap] in Hrun.
  unfold excluded_companies in Hrun. rewrite groupby_company in Hrun by done.
  cbn [mbind result_bind] in Hrun.
  destruct (rows d) as [|r rs] eqn:Hrows.
  - destruct d as [cols rws]. simpl in *. subst rws.
    simpl in Hrun. rewrite getitem_unique in Hrun by (apply Hwf || apply Hname).
    exact Hrun.
  - rewrite <-Hrows in Hrun.
    destruct (text_column_cell d "company_name" r Hname) as [c Hc];
      [rewrite Hrows; by left|].
    assert (Exists (λ r, row_key (columns d) r = Some (KStr c)) (rows d)) as Hex.
    { rewrite Hrows. left. unfold row_key, row_company. by rewrite Hc. }
    apply elem_of_group_keys in Hex.
    destruct (merge_sort _ _) as [|k ks] eqn:Hks; [by apply elem_of_nil in Hex|].
    rewrite scan_groups_nil in Hrun; [done..|].
    assert (k ∈ k :: ks) as Hk by by left.
    rewrite <-Hks in Hk. apply elem_of_group_keys, Exists_exists in Hk as (r' & Hr' & Hk).
    intros Hnil. eapply (filter_nil_not_elem_of _ _ r'); [exact Hnil|exact Hk|exact Hr'].
Qed.

(** C5: for a fixed table and fixed reference embeddings, the set of
    companies excluded at a threshold [t2] is included in the set
    excluded at any lower threshold [t1]; the loop raises at [t2] exactly
    when it raises at [t1], with the same exception.  The threshold is
    the argument of [is_similar_to_non_similar]. *)
Theorem excluded_companies_antitone
    (d : DataFrame) (non_similar_embeddings : list Vec) (t1 t2 : Q) :
  (t1 <= t2)%Q →
  match excluded_companies t1 d non_similar_embeddings,
        excluded_companies t2 d non_similar_embeddings with
  | Ok s1, Ok s2 => s2 ⊆ s1
  | Raise e1, Raise e2 => e1 = e2
  | _, _ => False
  end.
Proof.
  intros Ht. unfold excluded_companies.
  destruct (pd.groupby d "company_name") as [grouped|e]; [|done].
  cbn [mbind result_bind]. by apply scan_groups_antitone.
Qed.

End FilterClaims.

(** ** The small library satisfies the laws *)

Section ToyLaws.
Variable ties_ascending : bool.

Lemma hit_before_trans : Transitive (Toy.hit_before ties_ascending).
Proof.
  intros [x i] [y j] [z k]. unfold Toy.hit_before. simpl.
  intros [Hxy|[Hxy Hij]] [Hyz|[Hyz Hjk]].
  - left. lra.
  - left. lra.
  - left. lra.
  - right. split; [lra|]. destruct ties_ascending; lia.
Qed.

Lemma hit_before_total : Total (Toy.hit_before ties_ascending).
Proof.
  intros [x i] [y j]. unfold Toy.hit_before. simpl.
  destruct (Q_dec x y) as [[Hlt|Hgt]|Heq]; [by right; left|by left; left|].
  destruct (decide (i ≤ j)%nat).
  - destruct ties_ascending; [left|right]; right; split; (done || lia || by symmetry).
  - destruct ties_ascending; [right|left]; right; split; (done || lia || by symmetry).
Qed.

Lemma hit_before_ge (a b : Q * nat) :
  Toy.hit_before ties_ascending a b → (b.1 <= a.1)%Q.
Proof. intros [H|[H _]]; lra. Qed.

Lemma elem_of_zip_seq {A} (xs : list A) (v : A) (i : nat) :
  (v, i) ∈ zip xs (seq 0 (length xs)) ↔ xs !! i = Some v.
Proof.
  rewrite list_elem_of_lookup. split.
  - intros [j Hj]. apply lookup_zip_with_Some in Hj as (v' & i' & [= <- <-] & Hv & Hi).
    apply lookup_seq in Hi as [-> _]. done.
  - intros Hi. exists i. apply lookup_zip_with_Some. exists v, i.
    split_and!; [done..|]. apply lookup_seq. split; [done|]. by eapply lookup_lt_Some.
Qed.

Lemma StronglySorted_lookup_le {A} (R : relation A) (l : list A) i j x y :
  StronglySorted R l → (i < j)%nat → l !! i = Some x → l !! j = Some y → R x y.
Proof.
  intros Hl. revert i j. induction Hl as [|z l Hl IH Hz]; intros i j Hij Hi Hj; [done|].
  destruct j as [|j]; [lia|]. simpl in Hj. destruct i as [|i]; simpl in Hi.
  - simplify_eq. rewrite Forall_forall in Hz. apply Hz. by eapply list_elem_of_lookup_2.
  - eapply (IH i j); [lia|done..].
Qed.

Lemma toy_topk_ok (xs : list Q) (k : Z) :
  0 ≤ k ≤ Z.of_nat (length xs) →
  ∃ res, Toy.sorted_topk ties_ascending xs k = Ok res
    ∧ Z.of_nat (length res) = k
    ∧ NoDup res.*2
    ∧ (∀ v i, (v, i) ∈ res → xs !! i = Some v)
    ∧ descending res.*1
    ∧ (∀ j w v i, xs !! j = Some w → j ∉ res.*2 → (v, i) ∈ res → (w <= v)%Q).
Proof.
  intros Hk. unfold Toy.sorted_topk. rewrite decide_True by done.
  set (l := zip xs (seq 0 (length xs))).
  set (sorted := merge_sort (Toy.hit_before ties_ascending) l).
  assert (sorted ≡ₚ l) as Hperm by apply merge_sort_Permutation.
  assert (StronglySorted (Toy.hit_before ties_ascending) sorted) as Hsorted
    by apply (@StronglySorted_merge_sort _ _ _ hit_before_trans hit_before_total).
  assert (length sorted = length xs) as Hlen.
  { rewrite Hperm. unfold l. rewrite length_zip_with, length_seq. lia. }
  assert (NoDup sorted.*2) as Hnd.
  { rewrite Hperm. unfold l. rewrite snd_zip by (rewrite length_seq; lia).
    apply NoDup_seq. }
  assert (∀ v i, (v, i) ∈ sorted ↔ xs !! i = Some v) as Hin.
  { intros v i. rewrite Hperm. apply elem_of_zip_seq. }
  rewrite <-(take_drop (Z.to_nat k) sorted) in Hsorted, Hnd, Hin.
  set (top := take (Z.to_nat k) sorted) in *.
  set (rest := drop (Z.to_nat k) sorted) in *.
  exists top. split; [done|]. split_and!.
  - unfold top. rewrite length_take. lia.
  - rewrite fmap_app in Hnd. by apply NoDup_app in Hnd as [? _].
  - intros v i Hvi. apply Hin, elem_of_app. by left.
  - intros i j x y Hij Hi Hj.
    apply list_lookup_fmap_Some_1 in Hi as ([x' i'] & ? & Hi).
    apply list_lookup_fmap_Some_1 in Hj as ([y' j'] & ? & Hj). simplify_eq/=.
    destruct (decide (i = j)) as [->|Hne]; [simplify_eq; lra|].
    apply StronglySorted_app_1_l in Hsorted.
    apply (hit_before_ge (x', i') (y', j')).
    eapply (StronglySorted_lookup_le _ top i j); [done|lia|done..].
  - intros j w v i Hj Hout Hvi.
    assert ((w, j) ∈ rest) as Hrest.
    { apply Hin, elem_of_app in Hj as [Hj|Hj]; [|done].
      destruct Hout. apply list_elem_of_fmap. by exists (w, j). }
    apply (hit_before_ge (v, i) (w, j)).
    by eapply StronglySorted_app_1_elem_of.
Qed.

Lemma toy_laws : LibraryLaws (Toy.library ties_ascending).
Proof.
  split.
  - intros ss. simpl. induction ss as [|s ss IH]; [done|].
    rewrite !fmap_cons. cbn [mapM]. by rewrite IH.
  - intros xs k Hk. simpl. unfold Toy.sorted_topk. by rewrite decide_False.
  - apply toy_topk_ok.
Qed.

End ToyLaws.

(** ** The filter on concrete tables *)

(** C1, witness: "Beta Loans" has a sentence close to the excluded one,
    "Alpha Consulting" has none. *)
Lemma filter_non_similar_keeps_unflagged_witness :
  let d := {| columns := ["company_name"; "individual_sentences"];
              rows := [[CStr "Alpha Consulting"; CStr "it advises."];
                       [CStr "Beta Loans"; CStr "it offers consumer loans."];
                       [CStr "Alpha Consulting"; CStr "it is old."]] |} in
  let ns := ["company provides consumer loans"] in
  returns (filter_non_similar_at (L := Toy.library true) (1 # 2) 0%nat ns) {[ 0%nat := d ]}
    {| columns := columns d;
       rows := filter (kept (L := Toy.library true) (1 # 2) ns d) (rows d) |}
  ∧ returns (filter_non_similar (L := Toy.library true) 0%nat ns) {[ 0%nat := d ]}
    {| columns := columns d;
       rows := filter (kept (L := Toy.library true) threshold_default ns d) (rows d) |}.
Proof.
  apply (filter_non_similar_keeps_unflagged (HL := toy_laws true)).
  - apply lookup_singleton_eq.
  - split; compute_done.
  - split; [compute_done|]. repeat constructor; by eexists.
  - split; [compute_done|]. repeat constructor; by eexists.
  - done.
Defined.

(** C1, counterexample: with no excluded sentence no company has a
    flagged sentence, so every row should be returned; the call raises. *)
Lemma filter_non_similar_no_reference :
  let d := {| columns := ["company_name"; "individual_sentences"];
              rows := [[CStr "Alpha Consulting"; CStr "it advises."];
                       [CStr "Beta Loans"; CStr "it offers consumer loans."]] |} in
  filter (kept (L := Toy.library true) threshold_default [] d) (rows d) = rows d
  ∧ raises (filter_non_similar (L := Toy.library true) 0%nat []) {[ 0%nat := d ]}
      RuntimeError.
Proof.
  intros d. split; [by vm_compute|].
  pose proof (filter_non_similar_at_run (L := Toy.library true) threshold_default
                0%nat d [] {[ 0%nat := d ]} (lookup_singleton_eq _ _)) as Hrun.
  by vm_compute filter_non_similar_value in Hrun.
Qed.

(** C3, witness: a table with one row. *)
Lemma filter_non_similar_empty_list_witness :
  raises (filter_non_similar (L := Toy.library true) 0%nat [])
    {[ 0%nat := {| columns := ["company_name"; "individual_sentences"];
                   rows := [[CStr "Acme"; CStr "it sells tea."]] |} ]}
    RuntimeError.
Proof.
  apply (filter_non_similar_empty_list (HL := toy_laws true) 0%nat
           {| columns := ["company_name"; "individual_sentences"];
              rows := [[CStr "Acme"; CStr "it sells tea."]] |}).
  - apply lookup_singleton_eq.
  - split; compute_done.
  - split; [compute_done|]. repeat constructor; by eexists.
  - split; [compute_done|]. repeat constructor; by eexists.
Defined.

(** C3, counterexample: filtering the table of "Gamma" with an empty list
    does not return the table: it raises. *)
Lemma filter_non_similar_empty_list_raises :
  let d := {| columns := ["company_name"; "business_description";
                          "cleaned_description"; "individual_sentences"];
              rows := [[CStr "Gamma"; CStr "It builds boats.";
                        CStr "it builds boats."; CStr "it builds boats."]] |} in
  raises (filter_non_similar (L := Toy.library true) 0%nat []) {[ 0%nat := d ]}
    RuntimeError
  ∧ ¬ returns (filter_non_similar (L := Toy.library true) 0%nat []) {[ 0%nat := d ]} d.
Proof.
  intros d.
  pose proof (filter_non_similar_at_run (L := Toy.library true) threshold_default
                0%nat d [] {[ 0%nat := d ]} (lookup_singleton_eq _ _)) as Hrun.
  vm_compute filter_non_similar_value in Hrun. split; [exact Hrun|].
  intros (l & h' & Hret & _). unfold raises in Hrun.
  unfold filter_non_similar in Hret. by rewrite Hret in Hrun.
Qed.

(** C5, witness: thresholds 1/2 and 3/5 on a table with two companies. *)
Lemma excluded_companies_antitone_witness :
  let d := {| columns := ["company_name"; "individual_sentences"];
              rows := [[CStr "Alpha Consulting"; CStr "it advises."];
                       [CStr "Beta Loans"; CStr "it offers consumer loans."]] |} in
  match excluded_companies (L := Toy.library true) (1 # 2) d [20%nat],
        excluded_companies (L := Toy.library true) (3 # 5) d [20%nat] with
  | Ok s1, Ok s2 => s2 ⊆ s1
  | Raise e1, Raise e2 => e1 = e2
  | _, _ => False
  end.
Proof.
  apply (excluded_companies_antitone (L := Toy.library true)). done.
Defined.

(** ** Rounding *)

Section Rounding.

Lemma round_half_even_cases (x : Q) :
  let f := Qfloor x in
  (round_half_even x = f ∧ (x - inject_Z f <= 1 # 2)%Q)
  ∨ (round_half_even x = f + 1 ∧ (1 # 2 <= x - inject_Z f)%Q).
Proof.
  intros f. unfold round_half_even. fold f.
  destruct (Qcompare_spec (x - inject_Z f) (1 # 2)).
  - destruct (Z.even f); [left|right]; split; (done || lra).
  - left. split; [done|lra].
  - right. split; [done|lra].
Qed.

Lemma Qfloor_bounds (x : Q) :
  (inject_Z (Qfloor x) <= x)%Q ∧ (x < inject_Z (Qfloor x + 1))%Q.
Proof. split; [apply Qfloor_le|apply Qlt_floor]. Qed.

Lemma round_half_even_mono (x y : Q) :
  (x <= y)%Q → round_half_even x ≤ round_half_even y.
Proof.
  intros Hxy. pose proof (Qfloor_resp_le x y Hxy) as Hf.
  destruct (Z.eq_dec (Qfloor x) (Qfloor y)) as [Heq|Hne].
  - unfold round_half_even. rewrite <-Heq.
    destruct (Qcompare_spec (x - inject_Z (Qfloor x)) (1 # 2)),
             (Qcompare_spec (y - inject_Z (Qfloor x)) (1 # 2));
      try (destruct (Z.even (Qfloor x))); try lia; exfalso; lra.
  - destruct (round_half_even_cases x) as [[-> _]|[-> _]],
             (round_half_even_cases y) as [[-> _]|[-> _]]; lia.
Qed.

Lemma round_half_even_Z (z : Z) : round_half_even (inject_Z z) = z.
Proof.
  unfold round_half_even. rewrite Qfloor_Z.
  destruct (Qcompare_spec (inject_Z z - inject_Z z) (1 # 2)); [exfalso; lra|done|exfalso; lra].
Qed.

Lemma round4_mono (x y : Q) : (x <= y)%Q → (round4 x <= round4 y)%Q.
Proof.
  intros Hxy. unfold round4, Qle. simpl.
  apply Z.mul_le_mono_nonneg_r; [done|].
  apply round_half_even_mono. lra.
Qed.

(** Rounding keeps a score between two bounds with four decimals. *)
Lemma round4_between (lo hi : Z) (x : Q) :
  (lo # 10000 <= x)%Q → (x <= hi # 10000)%Q →
  (lo # 10000 <= round4 x)%Q ∧ (round4 x <= hi # 10000)%Q.
Proof.
  intros Hlo Hhi.
  assert (∀ z : Z, (z # 10000) * 10000 == inject_Z z)%Q as Hz.
  { intros z. unfold Qeq, Qmult, inject_Z. simpl. lia. }
  unfold round4, Qle. simpl. split; apply Z.mul_le_mono_nonneg_r; try done.
  - rewrite <-(round_half_even_Z lo). apply round_half_even_mono.
    rewrite <-Hz. lra.
  - rewrite <-(round_half_even_Z hi). apply round_half_even_mono.
    rewrite <-Hz. lra.
Qed.

End Rounding.

Section RoundingBounds.
Lemma round_half_even_le (x : Q) (z : Z) :
  (x < inject_Z z + (1 # 2))%Q → round_half_even x ≤ z.
Proof.
  intros Hx. destruct (Qfloor_bounds x) as [Hlo Hhi].
  assert (Qfloor x ≤ z) as Hf.
  { destruct (Z_le_gt_dec (Qfloor x) z) as [|Hgt]; [done|]. exfalso.
    assert (inject_Z (z + 1) <= inject_Z (Qfloor x))%Q as Hz
      by (rewrite <-Zle_Qle; lia).
    rewrite inject_Z_plus in Hz. change (inject_Z 1) with 1%Q in Hz. lra. }
  destruct (round_half_even_cases x) as [[-> _]|[-> Hhalf]]; [done|].
  destruct (Z.eq_dec (Qfloor x) z) as [Heq|Hne]; [|lia].
  rewrite Heq in Hhalf. exfalso. lra.
Qed.

Lemma round_half_even_ge (x : Q) (z : Z) :
  (inject_Z z - (1 # 2) < x)%Q → z ≤ round_half_even x.
Proof.
  intros Hx. destruct (Qfloor_bounds x) as [Hlo Hhi].
  rewrite inject_Z_plus in Hhi. change (inject_Z 1) with 1%Q in Hhi.
  assert (z ≤ Qfloor x + 1) as Hf.
  { destruct (Z_le_gt_dec z (Qfloor x + 1)) as [|Hgt]; [done|]. exfalso.
    assert (inject_Z (Qfloor x + 2) <= inject_Z z)%Q as Hz
      by (rewrite <-Zle_Qle; lia).
    rewrite inject_Z_plus in Hz. change (inject_Z 2) with 2%Q in Hz. lra. }
  destruct (round_half_even_cases x) as [[-> Hhalf]|[-> _]]; [|lia].
  destruct (Z.eq_dec z (Qfloor x + 1)) as [Heq|Hne]; [|lia].
  rewrite Heq, inject_Z_plus in Hx. change (inject_Z 1) with 1%Q in Hx.
  exfalso. lra.
Qed.

(** A cosine that leaves [[-1, 1]] by less than half a unit of the
    fourth decimal is rounded back into [[-1, 1]]. *)
Lemma round4_within (x eps : Q) :
  (eps < 1 # 20000)%Q → (-1 - eps <= x)%Q → (x <= 1 + eps)%Q →
  (-1 <= round4 x)%Q ∧ (round4 x <= 1)%Q.
Proof.
  intros Heps Hlo Hhi.
  assert (-10000 ≤ round_half_even (x * 10000)) as H1.
  { apply round_half_even_ge. change (inject_Z (-10000)) with (-10000 # 1)%Q. lra. }
  assert (round_half_even (x * 10000) ≤ 10000) as H2.
  { apply round_half_even_le. change (inject_Z 10000) with (10000 # 1)%Q. lra. }
  unfold round4, Qle. simpl. lia.
Qed.

Lemma descending_round4 (values : list Q) :
  descending values → descending (round4 <$> values).
Proof.
  intros Hd i j x y Hij Hi Hj.
  apply list_lookup_fmap_Some_1 in Hi as (x' & -> & Hi).
  apply list_lookup_fmap_Some_1 in Hj as (y' & -> & Hj).
  apply round4_mono. by eapply Hd.
Qed.

End RoundingBounds.

(** ** The ranker *)

Section Ranker.
Context {L : Library}.

Lemma mapM_Forall2 {A B} (f : A → result B) (xs : list A) (ys : list B) :
  mapM f xs = Ok ys ↔ Forall2 (λ x y, f x = Ok y) xs ys.
Proof.
  revert ys. induction xs as [|x xs IH]; intros ys; cbn [mapM].
  - split; [intros [= <-]; constructor|].
    intros H. by inversion H.
  - split.
    + destruct (f x) as [y|e] eqn:Hy; cbn [mbind result_bind]; [|done].
      destruct (mapM f xs) as [ys'|e] eqn:Hys; cbn [mbind result_bind]; [|done].
      intros [= <-]. constructor; [done|]. by apply IH.
    + intros H. inversion H as [|? y ? ys' Hy Hrest]; subst.
      apply IH in Hrest. by rewrite Hy, Hrest.
Qed.

Lemma cells_at_present cols r name :
  name ∈ cols → length r = length cols → pd.cells_at cols r name ≠ [].
Proof.
  revert r. induction cols as [|c cols IH]; intros [|v r] Hin Hlen; try done.
  - by apply elem_of_nil in Hin.
  - rewrite cells_at_cons. destruct (decide (c = name)) as [->|Hne]; [done|].
    apply elem_of_cons in Hin as [->|Hin]; [done|]. apply IH; [done|].
    simpl in Hlen. lia.
Qed.

Lemma row_getitem_present cols r name :
  name ∈ cols → length r = length cols → ∃ c, pd.row_getitem cols r name = Ok c.
Proof.
  intros Hin Hlen. pose proof (cells_at_present cols r name Hin Hlen) as Hne.
  unfold pd.row_getitem. destruct (pd.cells_at cols r name) as [|c [|c' cs]]; eauto.
  done.
Qed.

(** One turn of the loop, on a position that is a row of the table. *)
Lemma result_record_ok (d : DataFrame) (v : Q) (i : nat) :
  ranker_table d → (i < length (rows d))%nat →
  ∃ r, result_record d (v, i) = Ok r ∧ has_score r (round4 v).
Proof.
  intros [Hcols Hlen] Hi. apply lookup_lt_is_Some_2 in Hi as [r Hr].
  assert (length r = length (columns d)) as Hr'.
  { rewrite Forall_forall in Hlen. apply Hlen. by eapply list_elem_of_lookup_2. }
  apply Forall_cons in Hcols as [H1 Hcols]. apply Forall_cons in Hcols as [H2 Hcols].
  apply Forall_cons in Hcols as [H3 _].
  destruct (row_getitem_present _ r _ H1 Hr') as [c1 Hc1].
  destruct (row_getitem_present _ r _ H2 Hr') as [c2 Hc2].
  destruct (row_getitem_present _ r _ H3 Hr') as [c3 Hc3].
  unfold result_record, pd.iloc. cbn [fst snd]. rewrite Hr. cbn [mbind result_bind].
  rewrite Hc1, Hc2, Hc3. cbn [mbind result_bind]. eexists. split; [done|].
  reflexivity.
Qed.

Lemma result_records_ok (d : DataFrame) (hits : list (Q * nat)) :
  ranker_table d → Forall (λ hit, (hit.2 < length (rows d))%nat) hits →
  ∃ rs, mapM (result_record d) hits = Ok rs
    ∧ Forall2 has_score rs (round4 <$> hits.*1).
Proof.
  intros Hd. induction 1 as [|[v i] hits Hi _ (rs & Hrs & Hscore)].
  - exists []. split; [done|constructor].
  - destruct (result_record_ok d v i Hd Hi) as (r & Hr & Hs).
    exists (r :: rs). cbn [mapM]. rewrite Hr, Hrs. split; [done|].
    rewrite !fmap_cons. by constructor.
Qed.

Context {HL : LibraryLaws L}.

(** The scores are those of the first query. *)
Lemma query_scores_cons (q : string) (qs : list string) (bd_embeddings : list Vec) :
  query_scores (q :: qs) bd_embeddings =
  match bd_embeddings with
  | [] => Raise RuntimeError
  | _ :: _ => Ok (cos (encode (str_lower q)) <$> bd_embeddings)
  end.
Proof.
  unfold query_scores. rewrite list_fmap_compose, encode_sentences_str.
  by destruct bd_embeddings.
Qed.

Lemma query_scores_ok (q : string) (qs : list string) (bd_embeddings : list Vec) :
  bd_embeddings ≠ [] →
  query_scores (q :: qs) bd_embeddings =
  Ok (cos (encode (str_lower q)) <$> bd_embeddings).
Proof. intros Hbd. rewrite query_scores_cons. by destruct bd_embeddings. Qed.


(** The run of the ranker when [top_k] is in range: the table returned
    is made of the hits [torch.topk] gives on the scores of the first
    query. *)
Lemma find_top_similar_hits (q : string) (qs : list string) bd_embeddings
    data d top_k h :
  h !! data = Some d → bd_embeddings ≠ [] → ranker_table d →
  (length bd_embeddings ≤ length (rows d))%nat →
  0 ≤ top_k ≤ Z.of_nat (length bd_embeddings) →
  let scores := cos (encode (str_lower q)) <$> bd_embeddings in
  ∃ out hits,
    returns (find_top_similar (q :: qs) bd_embeddings data top_k) h out
    ∧ topk scores top_k = Ok hits
    ∧ Forall2 (λ hit r, result_record d hit = Ok r) hits (rows out)
    ∧ Forall2 has_score (rows out) (round4 <$> hits.*1).
Proof.
  intros Hd Hbd Htable Hrows Hk scores.
  pose proof (find_top_similar_run (q :: qs) bd_embeddings data d top_k h Hd) as Hrun.
  unfold find_top_similar_value in Hrun. rewrite query_scores_ok in Hrun by done.
  cbn [mbind result_bind] in Hrun. fold scores in Hrun.
  destruct (topk_ok scores top_k) as (hits & Htop & _ & _ & Hval & _).
  { unfold scores. by rewrite length_fmap. }
  rewrite Htop in Hrun. cbn [mbind result_bind] in Hrun.
  destruct (result_records_ok d hits Htable) as (rs & Hrs & Hscores).
  { apply Forall_forall. intros [v i] Hvi. simpl.
    apply Hval, lookup_lt_Some in Hvi. unfold scores in Hvi.
    rewrite length_fmap in Hvi. lia. }
  rewrite Hrs in Hrun. cbn [mbind result_bind] in Hrun.
  eexists _, hits. split; [exact Hrun|]. split; [done|].
  split; [by apply mapM_Forall2|done].
Qed.

End Ranker.

(** ** Claims about the ranker *)

Section RankerClaims.
Context {L : Library} {HL : LibraryLaws L}.

(** C2, as amended: for a non-empty candidate set of size N, a non-empty
    query list and a table the ranker can read with a row for every
    candidate, when [0 <= top_k <= N] the ranker returns exactly [top_k]
    rows (which is min(top_k, N)), their scores are in descending order,
    and, the cosines being within [eps] of [[-1, 1]] for a tolerance
    [eps] under half a unit of the fourth decimal, every returned score
    is within [[-1 - eps, 1 + eps]].  When [top_k] is out of that range
    the call raises [RuntimeError]: it does not clamp. *)
Theorem find_top_similar_count_and_order
    (q : string) (qs : list string) (bd_embeddings : list Vec)
    (data : loc) (d : DataFrame) (top_k : Z) (eps : Q) (h : Heap) :
  h !! data = Some d →
  bd_embeddings ≠ [] →
  ranker_table d →
  (length bd_embeddings ≤ length (rows d))%nat →
  (0 <= eps)%Q → (eps < 1 # 20000)%Q →
  (∀ a b, (-1 - eps <= cos a b)%Q ∧ (cos a b <= 1 + eps)%Q) →
  (0 ≤ top_k ≤ Z.of_nat (length bd_embeddings) →
     ∃ out scores,
       returns (find_top_similar (q :: qs) bd_embeddings data top_k) h out
       ∧ Z.of_nat (length (rows out)) = top_k
       ∧ Forall2 has_score (rows out) scores
       ∧ descending scores
       ∧ Forall (λ s, (-1 - eps <= s)%Q ∧ (s <= 1 + eps)%Q) scores)
  ∧ (¬ (0 ≤ top_k ≤ Z.of_nat (length bd_embeddings)) →
     raises (find_top_similar (q :: qs) bd_embeddings data top_k) h RuntimeError).
Proof.
  intros Hd Hbd Htable Hrows Heps0 Heps Hcos. split.
  - intros Hk.
    destruct (find_top_similar_hits q qs bd_embeddings data d top_k h)
      as (out & hits & Hret & Htop & Hrec & Hscores); [done..|].
    destruct (topk_ok (cos (encode (str_lower q)) <$> bd_embeddings) top_k)
      as (hits' & Htop' & Hlen & _ & Hval & Hdesc & _);
      [by rewrite length_fmap|].
    assert (hits' = hits) as -> by congruence.
    exists out, (round4 <$> hits.*1). split_and!; [done| |done| |].
    + apply Forall2_length in Hrec. by rewrite <-Hrec.
    + by apply descending_round4.
    + apply Forall_fmap, Forall_fmap, Forall_forall. intros [v i] Hvi.
      unfold compose. simpl.
      apply Hval, list_lookup_fmap_Some_1 in Hvi as (e & -> & _).
      destruct (Hcos (encode (str_lower q)) e) as [Hlo Hhi].
      destruct (round4_within _ eps Heps Hlo Hhi) as [Hlo' Hhi']. split; lra.
  - intros Hk.
    pose proof (find_top_similar_run (q :: qs) bd_embeddings data d top_k h Hd) as Hrun.
    unfold find_top_similar_value in Hrun.
    rewrite query_scores_ok in Hrun by done. cbn [mbind result_bind] in Hrun.
    rewrite topk_range in Hrun; [done|]. by rewrite length_fmap.
Qed.

(** C6, as amended: the ranker selects [top_k] candidates with the
    highest scores against the first query and lists them by descending
    score: every hit carries the score of its candidate, the scores are
    in descending order, and no candidate left out scores more than a
    candidate taken.  The order among candidates with equal scores is
    whatever [torch.topk] gives. *)
Theorem find_top_similar_selects_highest
    (q : string) (qs : list string) (bd_embeddings : list Vec)
    (data : loc) (d : DataFrame) (top_k : Z) (h : Heap) :
  h !! data = Some d →
  bd_embeddings ≠ [] →
  ranker_table d →
  (length bd_embeddings ≤ length (rows d))%nat →
  0 ≤ top_k ≤ Z.of_nat (length bd_embeddings) →
  ∃ out hits,
    returns (find_top_similar (q :: qs) bd_embeddings data top_k) h out
    ∧ Forall2 (λ hit r, result_record d hit = Ok r) hits (rows out)
    ∧ Z.of_nat (length hits) = top_k
    ∧ (∀ v i, (v, i) ∈ hits →
         ∃ e, bd_embeddings !! i = Some e ∧ v = cos (encode (str_lower q)) e)
    ∧ descending hits.*1
    ∧ (∀ j e v i, bd_embeddings !! j = Some e → j ∉ hits.*2 → (v, i) ∈ hits →
         (cos (encode (str_lower q)) e <= v)%Q).
Proof.
  intros Hd Hbd Htable Hrows Hk.
  destruct (find_top_similar_hits q qs bd_embeddings data d top_k h)
    as (out & hits & Hret & Htop & Hrec & _); [done..|].
  destruct (topk_ok (cos (encode (str_lower q)) <$> bd_embeddings) top_k)
    as (hits' & Htop' & Hlen & _ & Hval & Hdesc & Hbest);
    [by rewrite length_fmap|].
  assert (hits' = hits) as -> by congruence.
  exists out, hits. split_and!; [done..| |done|].
  - intros v i Hvi. apply Hval, list_lookup_fmap_Some_1 in Hvi as (e & -> & He).
    by exists e.
  - intros j e v i Hj Hout Hvi. eapply Hbest; [|done..].
    by rewrite list_lookup_fmap, Hj.
Qed.

(** C7: the result depends on the query list through its first element
    only, and on that element through its lowercase form: two calls whose
    first queries agree once lowercased give the same outcome and leave
    the same heap, whatever the later queries. *)
Theorem find_top_similar_first_query
    (q q' : string) (qs qs' : list string) (bd_embeddings : list Vec)
    (data : loc) (top_k : Z) (h : Heap) :
  str_lower q = str_lower q' →
  find_top_similar (q :: qs) bd_embeddings data top_k h =
  find_top_similar (q' :: qs') bd_embeddings data top_k h.
Proof.
  intros Hq. unfold find_top_similar.
  rewrite !(list_fmap_compose str_lower CStr), !encode_sentences_str.
  rewrite !fmap_cons, Hq. by destruct bd_embeddings.
Qed.


End RankerClaims.

(** ** Claims about both *)

Section FrameClaims.
Context {L : Library}.

(** C9: neither the ranker nor the filter changes a table that exists
    when it is called, the table passed in included, whether the call
    returns or raises; the reference returned is to a new table. *)
Theorem ranker_and_filter_leave_tables
    (input_texts : list string) (bd_embeddings : list Vec) (data : loc) (top_k : Z)
    (df_expanded : loc) (non_similar_sentences : list string) (h : Heap) :
  (∀ l df, h !! l = Some df →
     (find_top_similar input_texts bd_embeddings data top_k h).2 !! l = Some df)
  ∧ (∀ l, (find_top_similar input_texts bd_embeddings data top_k h).1 = Ok l →
       h !! l = None)
  ∧ (∀ l df, h !! l = Some df →
       (filter_non_similar df_expanded non_similar_sentences h).2 !! l = Some df)
  ∧ (∀ l, (filter_non_similar df_expanded non_similar_sentences h).1 = Ok l →
       h !! l = None).
Proof.
  destruct (find_top_similar_allocates input_texts bd_embeddings data top_k h)
    as [Hsub1 Hnew1].
  destruct (filter_non_similar_at_allocates threshold_default df_expanded
              non_similar_sentences h) as [Hsub2 Hnew2].
  split_and!.
  - intros l df Hl. by eapply lookup_weaken.
  - intros l Hl. apply not_elem_of_dom. by apply Hnew1.
  - intros l df Hl. by eapply lookup_weaken.
  - intros l Hl. apply not_elem_of_dom. by apply Hnew2.
Qed.

End FrameClaims.

(** ** The ranker on concrete tables *)

Lemma toy_ratio_bounds (a b : nat) : (0 <= Toy.ratio a b)%Q ∧ (Toy.ratio a b <= 1)%Q.
Proof.
  unfold Toy.ratio. destruct (Nat.max a b) as [|m] eqn:Hm; [split; lra|].
  unfold Qle. simpl. rewrite Zpos_P_of_succ_nat. lia.
Qed.

(** C2, witness: three candidates, the two best are asked for. *)
Lemma find_top_similar_count_and_order_witness :
  (0 ≤ 2 ≤ Z.of_nat (length [11; 25; 10]%nat) →
     ∃ out scores,
       returns (find_top_similar (L := Toy.library true) ["It advises!"]
                  [11; 25; 10]%nat 0%nat 2) {[ 0%nat := three_rows ]} out
       ∧ Z.of_nat (length (rows out)) = 2
       ∧ Forall2 has_score (rows out) scores
       ∧ descending scores
       ∧ Forall (λ s, (-1 - 0 <= s)%Q ∧ (s <= 1 + 0)%Q) scores)
  ∧ (¬ (0 ≤ 2 ≤ Z.of_nat (length [11; 25; 10]%nat)) →
     raises (find_top_similar (L := Toy.library true) ["It advises!"]
               [11; 25; 10]%nat 0%nat 2) {[ 0%nat := three_rows ]} RuntimeError).
Proof.
  apply (find_top_similar_count_and_order (HL := toy_laws true)
           "It advises!" [] [11; 25; 10]%nat 0%nat three_rows 2 0).
  - apply lookup_singleton_eq.
  - done.
  - split; compute_done.
  - simpl. lia.
  - done.
  - done.
  - intros a b. destruct (toy_ratio_bounds a b). simpl. split; lra.
Defined.

(** C2, counterexample: one candidate and the default [top_k] of 25; the
    claim promises min(25, 1) = 1 result, the call raises. *)
Lemma find_top_similar_default_k_raises :
  let d := {| columns := ["company_name"; "business_description"; "individual_sentences"];
              rows := [[CStr "Alpha Consulting"; CStr "It advises."; CStr "it advises."]] |} in
  Z.min top_k_default (Z.of_nat (length [11%nat])) = 1
  ∧ raises (find_top_similar (L := Toy.library true) ["It advises!"] [11%nat] 0%nat
              top_k_default) {[ 0%nat := d ]} RuntimeError.
Proof.
  intros d. split; [done|].
  pose proof (find_top_similar_run (L := Toy.library true) ["It advises!"] [11%nat]
                0%nat d top_k_default {[ 0%nat := d ]} (lookup_singleton_eq _ _)) as Hrun.
  by vm_compute find_top_similar_value in Hrun.
Qed.

(** C6, witness. *)
Lemma find_top_similar_selects_highest_witness :
  ∃ out hits,
    returns (find_top_similar (L := Toy.library true) ["It advises!"]
               [11; 25; 10]%nat 0%nat 2) {[ 0%nat := three_rows ]} out
    ∧ Forall2 (λ hit r, result_record three_rows hit = Ok r) hits (rows out)
    ∧ Z.of_nat (length hits) = 2
    ∧ (∀ v i, (v, i) ∈ hits →
         ∃ e, [11; 25; 10]%nat !! i = Some e ∧ v = Toy.ratio 11 e)
    ∧ descending hits.*1
    ∧ (∀ j e v i, [11; 25; 10]%nat !! j = Some e → j ∉ hits.*2 → (v, i) ∈ hits →
         (Toy.ratio 11 e <= v)%Q).
Proof.
  apply (find_top_similar_selects_highest (HL := toy_laws true)
           "It advises!" [] [11; 25; 10]%nat 0%nat three_rows 2).
  - apply lookup_singleton_eq.
  - done.
  - split; compute_done.
  - simpl. lia.
  - simpl. lia.
Defined.

(** C6, counterexample: five candidates with the same sentence, hence
    the same score against the query.  The code leaves the order of equal
    scores to [torch.topk], whose CPU kernel selects with
    [std::nth_element] and orders with [std::sort], neither of them
    stable: on two equal scores it lists the positions 0, 1, on five
    equal scores the positions 2, 4, 3, 0, 1.  The ranker lists the
    companies in that order, "Gamma" first, and "Epsilon" (position 4)
    before "Delta" (position 3). *)
Lemma find_top_similar_ties_not_ascending :
  @query_scores Kernel.library ["It advises!"] [11; 11; 11; 11; 11]%nat
    = Ok [11 # 11; 11 # 11; 11 # 11; 11 # 11; 11 # 11]%Q
  ∧ Kernel.torch_topk [1; 1]%Q 2 = Ok [(1, 0%nat); (1, 1%nat)]%Q
  ∧ Kernel.torch_topk [11 # 11; 11 # 11; 11 # 11; 11 # 11; 11 # 11]%Q 5
    = Ok [(11 # 11, 2%nat); (11 # 11, 4%nat); (11 # 11, 3%nat);
          (11 # 11, 0%nat); (11 # 11, 1%nat)]%Q
  ∧ ¬ ties_by_index [(11 # 11, 2%nat); (11 # 11, 4%nat); (11 # 11, 3%nat);
                     (11 # 11, 0%nat); (11 # 11, 1%nat)]%Q
  ∧ returns (find_top_similar (L := Kernel.library) ["It advises!"]
               [11; 11; 11; 11; 11]%nat 0%nat 5) {[ 0%nat := five_rows ]}
      {| columns := result_labels;
         rows := [[CStr "Gamma"; CStr "It advises."; CStr "it advises.";
                   CFloat (10000 # 10000)];
                  [CStr "Epsilon"; CStr "It advises."; CStr "it advises.";
                   CFloat (10000 # 10000)];
                  [CStr "Delta"; CStr "It advises."; CStr "it advises.";
                   CFloat (10000 # 10000)];
                  [CStr "Alpha"; CStr "It advises."; CStr "it advises.";
                   CFloat (10000 # 10000)];
                  [CStr "Beta"; CStr "It advises."; CStr "it advises.";
                   CFloat (10000 # 10000)]] |}.
Proof.
  split; [by vm_compute|]. split; [by vm_compute|]. split; [by vm_compute|]. split.
  { intros Hties.
    specialize (Hties 1%nat 2%nat (11 # 11)%Q 4%nat (11 # 11)%Q 3%nat).
    cut (4 < 3)%nat; [lia|]. apply Hties; (lia || done). }
  pose proof (find_top_similar_run (L := Kernel.library) ["It advises!"]
                [11; 11; 11; 11; 11]%nat 0%nat five_rows 5 {[ 0%nat := five_rows ]}
                (lookup_singleton_eq _ _)) as Hrun.
  by vm_compute find_top_similar_value in Hrun.
Qed.

(** C7, witness: the first queries differ in case only, the later ones
    differ. *)
Lemma find_top_similar_first_query_witness :
  find_top_similar (L := Toy.library true) ["It Advises!"; "It lends."]
    [11; 25; 10]%nat 0%nat 2 {[ 0%nat := three_rows ]} =
  find_top_similar (L := Toy.library true) ["it advises!"]
    [11; 25; 10]%nat 0%nat 2 {[ 0%nat := three_rows ]}.
Proof.
  apply (find_top_similar_first_query (HL := toy_laws true)). reflexivity.
Defined.


(** ** More on the preprocessor *)

Section LoadMore.
Context {L : Library}.

(** A record whose description has sentences becomes one row per
    sentence, in order, each with the sentence, the lowercased
    description, and the other cells kept. *)
Lemma record_rows_sentences cols r s :
  NoDup cols → length r = length cols →
  pd.cells_at cols r "business_description" = [CStr s] →
  sent_tokenize (str_lower s) ≠ [] →
  let cols3 := pd.set_label (pd.set_label cols "cleaned_description") "sentences" in
  Forall2 (λ r' x,
             pd.cells_at cols3 r' "sentences" = [CStr x]
             ∧ pd.cells_at cols3 r' "cleaned_description" = [CStr (str_lower s)]
             ∧ ∀ name, name ≠ "sentences" → name ≠ "cleaned_description" →
                 pd.cells_at cols3 r' name = pd.cells_at cols r name)
          (record_rows cols r) (sent_tokenize (str_lower s)).
Proof.
  intros Hnd Hlen Hs%cell_at_one Htok cols3. unfold record_rows.
  rewrite Hs. simpl pd.str_cell.
  set (cols2 := pd.set_label cols "cleaned_description").
  set (r2 := pd.set_cell cols "cleaned_description" (CStr (str_lower s)) r).
  assert (NoDup cols2) as Hnd2 by by apply set_label_NoDup.
  assert (length r2 = length cols2) as Hlen2 by by apply set_cell_length.
  assert (pd.cells_at cols2 r2 "cleaned_description" = [CStr (str_lower s)]) as Hcd
    by by apply cells_at_set_cell.
  rewrite (cell_at_one cols2 r2 _ _ Hcd). simpl sentences_cell.
  destruct (sent_tokenize (str_lower s)) as [|x0 ss0]; [done|].
  set (ss := x0 :: ss0).
  set (r3 := pd.set_cell cols2 "sentences" (CList (CStr <$> ss)) r2).
  fold cols3.
  assert (NoDup cols3) as Hnd3 by by apply set_label_NoDup.
  assert (length r3 = length cols3) as Hlen3 by by apply set_cell_length.
  assert ("sentences" ∈ cols3) as Hin3 by apply set_label_elem.
  unfold pd.explode_row.
  rewrite (cell_at_one cols3 r3 _ (CList (CStr <$> ss))) by by apply cells_at_set_cell.
  change (Forall2 (λ r' x,
             pd.cells_at cols3 r' "sentences" = [CStr x]
             ∧ pd.cells_at cols3 r' "cleaned_description" = [CStr (str_lower s)]
             ∧ ∀ name, name ≠ "sentences" → name ≠ "cleaned_description" →
                 pd.cells_at cols3 r' name = pd.cells_at cols r name)
            ((λ v, pd.set_cell cols3 "sentences" v r3) <$> (CStr <$> ss)) ss).
  rewrite <-list_fmap_compose.
  apply Forall2_fmap_l, Forall_Forall2_diag, Forall_forall. intros x _.
  unfold compose. split_and!.
  - rewrite <-(set_label_idem cols3 "sentences") at 1 by done.
    by apply cells_at_set_cell.
  - rewrite <-(set_label_idem cols3 "sentences") at 1 by done.
    rewrite cells_at_set_cell_ne by done.
    unfold cols3, r3. by rewrite cells_at_set_cell_ne.
  - intros name Hn1 Hn2.
    rewrite <-(set_label_idem cols3 "sentences") at 1 by done.
    rewrite cells_at_set_cell_ne by done.
    unfold cols3, r3. rewrite cells_at_set_cell_ne by done.
    unfold cols2, r2. by rewrite cells_at_set_cell_ne.
Qed.

Lemma length_bind {A B} (f : A → list B) (l : list A) :
  length (l ≫= f) = sum_list_with (λ x, length (f x)) l.
Proof.
  induction l as [|x l IH]; [done|]. rewrite bind_cons, length_app, IH. done.
Qed.

Lemma record_rows_length cols r s :
  NoDup cols → length r = length cols →
  pd.cells_at cols r "business_description" = [CStr s] →
  length (record_rows cols r) = Nat.max 1 (length (record_sentences cols r)).
Proof.
  intros Hnd Hlen Hs. unfold record_sentences. rewrite (cell_at_one _ _ _ _ Hs).
  destruct (sent_tokenize (str_lower s)) as [|x ss] eqn:Htok.
  - by destruct (record_rows_no_sentence cols r s Hnd Hlen Hs Htok) as (r' & -> & _).
  - assert (sent_tokenize (str_lower s) ≠ []) as Hne by by rewrite Htok.
    pose proof (record_rows_sentences cols r s Hnd Hlen Hs Hne) as Hrows.
    apply Forall2_length in Hrows. rewrite Hrows, Htok. simpl. lia.
Qed.

Lemma record_rows_row_length cols r r' :
  length r = length cols → r' ∈ record_rows cols r →
  length r' =
  length (pd.set_label (pd.set_label cols "cleaned_description") "sentences").
Proof.
  intros Hlen. unfold record_rows.
  set (cols2 := pd.set_label cols "cleaned_description").
  set (cols3 := pd.set_label cols2 "sentences").
  set (r2 := pd.set_cell cols _ _ r).
  set (r3 := pd.set_cell cols2 _ _ r2).
  assert (length r2 = length cols2) as Hlen2 by by apply set_cell_length.
  assert (length r3 = length cols3) as Hlen3 by by apply set_cell_length.
  assert (∀ v, length (pd.set_cell cols3 "sentences" v r3) = length cols3) as Hset.
  { intros v. rewrite set_cell_length by done.
    by rewrite set_label_idem by apply set_label_elem. }
  unfold pd.explode_row. destruct (pd.cell_at cols3 r3 "sentences") as [| | |[|v vs]].
  - by intros ->%list_elem_of_singleton.
  - by intros ->%list_elem_of_singleton.
  - by intros ->%list_elem_of_singleton.
  - by intros ->%list_elem_of_singleton.
  - by intros (v' & -> & _)%list_elem_of_fmap.
Qed.

Lemma NoDup_rename_new cols (old new : string) :
  NoDup cols → new ∉ cols →
  NoDup ((λ c, default c (({[ old := new ]} : gmap string string) !! c)) <$> cols).
Proof.
  intros Hnd Hnew. apply NoDup_fmap_2_strong; [|done].
  intros c1 c2 Hc1 Hc2.
  destruct (decide (c1 = old)) as [->|H1], (decide (c2 = old)) as [->|H2];
    rewrite ?lookup_singleton_eq, ?lookup_singleton_ne by done; simpl;
    try done; intros; subst; done.
Qed.

Lemma mapM_raise {A B} (f : A → result B) (e : exn) (xs : list A) :
  (∀ x e', f x = Raise e' → e' = e) →
  Exists (λ x, ∃ e', f x = Raise e') xs →
  mapM f xs = Raise e.
Proof.
  intros Honly. induction 1 as [x xs [e' Hx]|x xs _ IH]; cbn [mapM].
  - rewrite Hx. cbn [mbind result_bind]. by rewrite (Honly x e' Hx).
  - destruct (f x) as [y|e'] eqn:Hx; cbn [mbind result_bind].
    + by rewrite IH.
    + by rewrite (Honly x e' Hx).
Qed.

Lemma record_rows_total cols (rs : list Row) :
  NoDup cols →
  Forall (λ r, length r = length cols) rs →
  Forall (λ r, ∃ s, pd.cells_at cols r "business_description" = [CStr s]) rs →
  length (rs ≫= record_rows cols) =
  sum_list_with (λ r, Nat.max 1 (length (record_sentences cols r))) rs.
Proof.
  intros Hnd Hlen Htext. rewrite length_bind.
  induction rs as [|r rs IH]; [done|].
  apply Forall_cons in Hlen as [Hr Hlen]. apply Forall_cons in Htext as [[s Hs] Htext].
  cbn [sum_list_with]. rewrite (record_rows_length _ r s) by done.
  by rewrite IH.
Qed.

Lemma set_label_elem_old cols name name' :
  name' ∈ cols → name' ∈ pd.set_label cols name.
Proof. unfold pd.set_label. case_decide; [done|]. set_solver. Qed.

End LoadMore.

Section LoadExtras.
Context {L : Library}.

(** X1: a record whose description has sentences contributes one row per
    sentence, in the order of the sentences; each of these rows has the
    sentence, the lowercased description, the description and the
    company name of the record. *)
Theorem load_data_sentence_rows (csv : DataFrame) (h : Heap) :
  well_formed (pd.rename load_columns csv) →
  text_column (pd.rename load_columns csv) "business_description" →
  "individual_sentences" ∉ columns (pd.rename load_columns csv) →
  ∃ out parts,
    returns (load_data csv) h out
    ∧ rows out = concat parts
    ∧ length parts = length (rows csv)
    ∧ ∀ i r s,
        rows csv !! i = Some r →
        pd.cells_at (columns (pd.rename load_columns csv)) r "business_description"
          = [CStr s] →
        sent_tokenize (str_lower s) ≠ [] →
        ∃ rs, parts !! i = Some rs
          ∧ Forall2
              (λ r' x,
                 pd.row_getitem (columns out) r' "individual_sentences" = Ok (CStr x)
                 ∧ pd.row_getitem (columns out) r' "cleaned_description"
                   = Ok (CStr (str_lower s))
                 ∧ pd.row_getitem (columns out) r' "business_description" = Ok (CStr s)
                 ∧ pd.row_getitem (columns out) r' "company_name"
                   = pd.row_getitem (columns (pd.rename load_columns csv)) r
                       "company_name")
              rs (sent_tokenize (str_lower s)).
Proof.
  set (d1 := pd.rename load_columns csv).
  intros Hwf Htext Hfree.
  pose proof (load_data_run csv h) as Hrun.
  rewrite (load_data_value_ok csv Hwf Htext) in Hrun. fold d1 in Hrun.
  eexists _, (record_rows (columns d1) <$> rows csv).
  split; [exact Hrun|]. split; [by rewrite concat_fmap_bind|].
  split; [by rewrite length_fmap|].
  intros i r s Hi Hs Htok. destruct Hwf as [Hnd Hlen].
  assert (length r = length (columns d1)) as Hr.
  { rewrite Forall_forall in Hlen. apply Hlen.
    by apply list_elem_of_lookup_2 in Hi. }
  exists (record_rows (columns d1) r).
  split; [by rewrite list_lookup_fmap, Hi|].
  eapply Forall2_impl; [by apply (record_rows_sentences _ r s)|].
  intros r' x (Hx & Hcd & Hkeep). cbn [columns]. unfold pd.row_getitem.
  assert ("individual_sentences" ∉
          pd.set_label (pd.set_label (columns d1) "cleaned_description") "sentences")
    as Hfree3 by (unfold pd.set_label; repeat case_decide; set_solver).
  split_and!.
  - by rewrite cells_at_rename_new, Hx.
  - by rewrite cells_at_rename_other, Hcd.
  - by rewrite cells_at_rename_other, Hkeep, Hs.
  - by rewrite cells_at_rename_other, Hkeep.
Qed.

(** X2: the number of rows returned is the sum, over the records, of the
    number of sentences of the description, a description without a
    sentence counting for one. *)
Theorem load_data_row_count (csv : DataFrame) (h : Heap) :
  well_formed (pd.rename load_columns csv) →
  text_column (pd.rename load_columns csv) "business_description" →
  ∃ out,
    returns (load_data csv) h out
    ∧ length (rows out) =
      sum_list_with
        (λ r, Nat.max 1 (length (record_sentences
                                   (columns (pd.rename load_columns csv)) r)))
        (rows csv).
Proof.
  set (d1 := pd.rename load_columns csv).
  intros Hwf Htext.
  pose proof (load_data_run csv h) as Hrun.
  rewrite (load_data_value_ok csv Hwf Htext) in Hrun. fold d1 in Hrun.
  eexists. split; [exact Hrun|]. cbn [rows].
  apply record_rows_total; [apply Hwf..|apply Htext].
Qed.

(** X3: the table returned is well formed when the table read is: its
    labels are unique and every row has one cell per label; it has the
    columns "cleaned_description" and "individual_sentences" and no column
    "sentences". *)
Theorem load_data_well_formed (csv : DataFrame) (h : Heap) :
  well_formed (pd.rename load_columns csv) →
  text_column (pd.rename load_columns csv) "business_description" →
  "individual_sentences" ∉ columns (pd.rename load_columns csv) →
  ∃ out,
    returns (load_data csv) h out
    ∧ well_formed out
    ∧ "cleaned_description" ∈ columns out
    ∧ "individual_sentences" ∈ columns out
    ∧ "sentences" ∉ columns out.
Proof.
  set (d1 := pd.rename load_columns csv).
  intros Hwf Htext Hfree.
  pose proof (load_data_run csv h) as Hrun.
  rewrite (load_data_value_ok csv Hwf Htext) in Hrun. fold d1 in Hrun.
  eexists. split; [exact Hrun|]. cbn [columns rows].
  set (cols3 := pd.set_label (pd.set_label (columns d1) "cleaned_description")
                  "sentences").
  assert ("individual_sentences" ∉ cols3) as Hfree3
    by (unfold cols3, pd.set_label; repeat case_decide; set_solver).
  destruct Hwf as [Hnd Hlen]. split_and!.
  - split; cbn [columns rows].
    + apply NoDup_rename_new; [|done]. by do 2 apply set_label_NoDup.
    + apply Forall_forall. intros r' (r & Hr' & Hr)%list_elem_of_bind.
      rewrite length_fmap. apply (record_rows_row_length _ r); [|done].
      rewrite Forall_forall in Hlen. by apply Hlen.
  - apply list_elem_of_fmap. exists "cleaned_description". split; [done|].
    apply set_label_elem_old, set_label_elem.
  - apply list_elem_of_fmap. exists "sentences".
    split; [by rewrite lookup_singleton_eq|apply set_label_elem].
  - intros (c & Hc & Hin)%list_elem_of_fmap.
    destruct (decide (c = "sentences")) as [->|Hne].
    + by rewrite lookup_singleton_eq in Hc.
    + rewrite lookup_singleton_ne in Hc by done. simpl in Hc. by subst.
Qed.

(** X4: a description that is not a string (a missing value, a number)
    makes the load fail: with [AttributeError] when no description of the
    table is a string or a list, with [TypeError] otherwise. *)
Theorem load_data_bad_description (csv : DataFrame) (h : Heap) :
  well_formed (pd.rename load_columns csv) →
  "business_description" ∈ columns (pd.rename load_columns csv) →
  Exists (λ r, is_str (pd.cell_at (columns (pd.rename load_columns csv)) r
                         "business_description") = false) (rows csv) →
  raises (load_data csv) h
    (if forallb pd.is_number
          ((λ r, pd.cell_at (columns (pd.rename load_columns csv)) r
                   "business_description") <$> rows csv)
     then AttributeError else TypeError).
Proof.
  set (d1 := pd.rename load_columns csv).
  intros [Hnd Hlen] Hin Hbad.
  pose proof (load_data_run csv h) as Hrun.
  unfold load_data_value in Hrun. fold d1 in Hrun.
  rewrite getitem_unique in Hrun by done. cbn [mbind result_bind] in Hrun.
  change (rows d1) with (rows csv) in *.
  set (col := (λ r, pd.cell_at (columns d1) r "business_description") <$> rows csv) in *.
  assert (col ≠ []) as Hcol.
  { unfold col. destruct (rows csv); [by apply Exists_nil in Hbad|done]. }
  unfold pd.str_map in Hrun. destruct col as [|c col'] eqn:Hcoleq; [done|].
  rewrite <-Hcoleq in *. destruct (forallb pd.is_number col); [exact Hrun|].
  cbn [mbind result_bind] in Hrun.
  rewrite getitem_unique in Hrun;
    [|by apply set_label_NoDup|by apply set_label_elem].
  cbn [mbind result_bind columns rows pd.setitem] in Hrun.
  unfold pd.apply in Hrun. rewrite (mapM_raise _ TypeError) in Hrun; [exact Hrun| |].
  - intros [] e'; simpl; congruence.
  - unfold col. rewrite zip_with_fmap_l, zip_with_fmap_l, zip_with_diag.
    rewrite !Exists_fmap.
    apply Exists_exists in Hbad as (r & Hr & Hbad). apply Exists_exists.
    exists r. split; [done|]. unfold compose.
    rewrite Forall_forall in Hlen.
    rewrite (cell_at_one _ _ _ _ (cells_at_set_cell (columns d1) r
               "cleaned_description" _ Hnd (Hlen r Hr))).
    exists TypeError. by destruct (pd.cell_at (columns d1) r "business_description").
Qed.

(** X5: [load_data] changes its own table in place and no other: every
    table that exists when it is called is unchanged afterwards, whether
    it returns or raises, and the reference returned is to a new table. *)
Theorem load_data_leaves_tables (csv : DataFrame) (h : Heap) :
  (∀ l df, h !! l = Some df → (load_data csv h).2 !! l = Some df)
  ∧ (∀ l, (load_data csv h).1 = Ok l → h !! l = None).
Proof.
  enough (h ⊆ (load_data csv h).2 ∧ ∀ l, (load_data csv h).1 = Ok l → l ∉ dom h)
    as [Hsub Hnew].
  { split; [intros l df Hl; by eapply lookup_weaken|].
    intros l Hl. by apply not_elem_of_dom, Hnew. }
  pose proof (fresh_loc_unused h) as Hfresh.
  assert (∀ x, h ⊆ <[fresh (dom h) := x]> h) as Hins
    by (intros x; by apply insert_subseteq).
  unfold load_data. do 5 run_step.
  destruct (pd.getitem AttributeError _ _) as [description|e];
    [|cbn [fst snd]; rewrite ?insert_insert_eq; split; [apply Hins|done]].
  cbn [mbind result_bind]. run_step.
  destruct (pd.str_map _ _) as [cleaned|e]; [|cbn [fst snd]; rewrite ?insert_insert_eq; split; [apply Hins|done]].
  cbn [mbind result_bind]. do 2 run_step. rewrite insert_insert_eq. run_step.
  destruct (pd.getitem TypeError _ _) as [cleaned'|e]; [|cbn [fst snd]; rewrite ?insert_insert_eq; split; [apply Hins|done]].
  cbn [mbind result_bind]. run_step.
  destruct (pd.apply _ _) as [sentences|e]; [|cbn [fst snd]; rewrite ?insert_insert_eq; split; [apply Hins|done]].
  cbn [mbind result_bind]. run_step. rewrite insert_insert_eq. do 2 run_step.
  destruct (pd.explode _ _) as [exploded|e]; [|cbn [fst snd]; rewrite ?insert_insert_eq; split; [apply Hins|done]].
  cbn [mbind result_bind]. rewrite ?insert_insert_eq.
  match goal with
  | |- _ ⊆ (?m ?h0).2 ∧ _ =>
      assert (allocates m) as Halloc by (repeat frame_step);
      destruct (Halloc h0) as [Hsub Hnew]
  end.
  split.
  - etrans; [apply Hins|exact Hsub].
  - intros l Hl. destruct (Hnew l Hl) as [Hout _]. intros Hdom. apply Hout.
    rewrite dom_insert. set_solver.
Qed.

End LoadExtras.

(** ** The preprocessor on concrete files *)

(** X1, witness. *)
Lemma load_data_sentence_rows_witness :
  ∃ out parts,
    returns (load_data (L := Toy.library true) two_records) ∅ out
    ∧ rows out = concat parts
    ∧ length parts = length (rows two_records)
    ∧ ∀ i r s,
        rows two_records !! i = Some r →
        pd.cells_at (columns (pd.rename load_columns two_records)) r "business_description"
          = [CStr s] →
        Toy.split_sentences EmptyString (Toy.lower s) ≠ [] →
        ∃ rs, parts !! i = Some rs
          ∧ Forall2
              (λ r' x,
                 pd.row_getitem (columns out) r' "individual_sentences" = Ok (CStr x)
                 ∧ pd.row_getitem (columns out) r' "cleaned_description"
                   = Ok (CStr (Toy.lower s))
                 ∧ pd.row_getitem (columns out) r' "business_description" = Ok (CStr s)
                 ∧ pd.row_getitem (columns out) r' "company_name"
                   = pd.row_getitem (columns (pd.rename load_columns two_records)) r
                       "company_name")
              rs (Toy.split_sentences EmptyString (Toy.lower s)).
Proof.
  apply (load_data_sentence_rows (L := Toy.library true)).
  - split; compute_done.
  - split; [compute_done|]. repeat constructor; by eexists.
  - compute_done.
Defined.

(** X2, witness: two sentences and a blank description give three rows. *)
Lemma load_data_row_count_witness :
  ∃ out,
    returns (load_data (L := Toy.library true) two_records) ∅ out
    ∧ length (rows out) = 3%nat.
Proof.
  apply (load_data_row_count (L := Toy.library true) two_records).
  - split; compute_done.
  - split; [compute_done|]. repeat constructor; by eexists.
Defined.

(** X3, witness. *)
Lemma load_data_well_formed_witness :
  ∃ out,
    returns (load_data (L := Toy.library true) two_records) ∅ out
    ∧ well_formed out
    ∧ "cleaned_description" ∈ columns out
    ∧ "individual_sentences" ∈ columns out
    ∧ "sentences" ∉ columns out.
Proof.
  apply (load_data_well_formed (L := Toy.library true)).
  - split; compute_done.
  - split; [compute_done|]. repeat constructor; by eexists.
  - compute_done.
Defined.

(** X4, witness: a missing description beside a string raises
    [TypeError]; alone in its column it raises [AttributeError]. *)
Lemma load_data_bad_description_witness :
  raises (load_data (L := Toy.library true)
            {| columns := ["Company Name"; "Business Description"];
               rows := [[CStr "Acme"; CStr "It sells tea."];
                        [CStr "Nil Corp"; CNaN]] |}) ∅ TypeError
  ∧ raises (load_data (L := Toy.library true)
              {| columns := ["Company Name"; "Business Description"];
                 rows := [[CStr "Nil Corp"; CNaN]] |}) ∅ AttributeError.
Proof.
  split.
  - apply (load_data_bad_description (L := Toy.library true)
             {| columns := ["Company Name"; "Business Description"];
                rows := [[CStr "Acme"; CStr "It sells tea."];
                         [CStr "Nil Corp"; CNaN]] |}).
    + split; compute_done.
    + compute_done.
    + apply Exists_cons_tl, Exists_cons_hd. reflexivity.
  - apply (load_data_bad_description (L := Toy.library true)
             {| columns := ["Company Name"; "Business Description"];
                rows := [[CStr "Nil Corp"; CNaN]] |}).
    + split; compute_done.
    + compute_done.
    + apply Exists_cons_hd. reflexivity.
Defined.

(** ** More on the filter *)

Section FilterMore.
Context {L : Library}.

Lemma returns_unique (m : M loc) (h : Heap) (v : result DataFrame) (out : DataFrame) :
  match v with
  | Ok out' => returns m h out'
  | Raise e => raises m h e
  end →
  returns m h out → v = Ok out.
Proof.
  intros Hrun (l & h' & Hret & Hl). destruct v as [out'|e].
  - destruct Hrun as (l' & h'' & Hret' & Hl').
    assert (l = l' ∧ h' = h'') as [-> ->] by (split; congruence). congruence.
  - unfold raises in Hrun. by rewrite Hret in Hrun.
Qed.

Lemma mapM_Ok_fmap {A B} (f : A → result B) (b : B) (xs : list A) (ys : list B) :
  mapM f xs = Ok ys →
  ys = (λ x, match f x with Ok y => y | Raise _ => b end) <$> xs.
Proof.
  revert ys. induction xs as [|x xs IH]; intros ys; cbn [mapM].
  - by intros [= <-].
  - destruct (f x) as [y|e] eqn:Hy; cbn [mbind result_bind]; [|done].
    destruct (mapM f xs) as [ys'|e] eqn:Hys; cbn [mbind result_bind]; [|done].
    intros [= <-]. rewrite fmap_cons, Hy. f_equal. by apply IH.
Qed.

Lemma getitem_Ok dup (d : DataFrame) name col :
  pd.getitem dup d name = Ok col →
  col = (λ r, pd.cell_at (columns d) r name) <$> rows d.
Proof.
  unfold pd.getitem. destruct (filter _ _) as [|? [|? ?]]; [done| |done].
  by intros [= <-].
Qed.

(** Whenever the filter returns, it has kept the rows whose company cell
    is not in the set of excluded companies. *)
Lemma filter_non_similar_value_mask threshold (d : DataFrame) ns out :
  filter_non_similar_value threshold d ns = Ok out →
  ∃ companies_to_exclude,
    out = {| columns := columns d;
             rows := filter (λ r, in_values companies_to_exclude
                                    (pd.cell_at (columns d) r "company_name") = false)
                            (rows d) |}.
Proof.
  unfold filter_non_similar_value.
  destruct (encode_sentences _) as [embs|]; [|done]. cbn [mbind result_bind].
  destruct (excluded_companies _ _ _) as [S|]; [|done]. cbn [mbind result_bind].
  destruct (pd.getitem _ _ _) as [names|] eqn:Hnames; [|done]. cbn [mbind result_bind].
  destruct (pd.isin _ _) as [excluded|] eqn:Hisin; [|done]. cbn [mbind result_bind].
  intros [= <-]. exists S. apply getitem_Ok in Hnames as ->.
  unfold pd.isin in Hisin. apply (mapM_Ok_fmap _ false) in Hisin as ->.
  rewrite <-!list_fmap_compose, getitem_mask_fmap. unfold pd.reset_index.
  f_equal. apply list_filter_iff. intros r. unfold compose, in_values.
  destruct (hash_key _) as [[k|]|]; simpl; by rewrite ?negb_true_iff.
Qed.

Lemma filter_all {A} (P : A → Prop) `{∀ x, Decision (P x)} (l : list A) :
  Forall P l → filter P l = l.
Proof.
  induction 1 as [|x l Hx _ IH]; [done|]. by rewrite filter_cons_True, IH.
Qed.

Lemma filter_filter_impl {A} (P Q : A → Prop)
    `{∀ x, Decision (P x)} `{∀ x, Decision (Q x)} (l : list A) :
  (∀ x, Q x → P x) → filter Q (filter P l) = filter Q l.
Proof.
  intros HQP. rewrite list_filter_filter. apply list_filter_iff. naive_solver.
Qed.

(** The table of the kept rows has the shape of the table filtered. *)
Lemma filter_rows_well_formed (d : DataFrame) (P : Row → Prop) `{∀ r, Decision (P r)} :
  well_formed d →
  well_formed {| columns := columns d; rows := filter P (rows d) |}.
Proof.
  intros [Hnd Hlen]. split; [done|]. simpl.
  rewrite Forall_forall in Hlen. apply Forall_forall.
  intros r [_ Hr]%list_elem_of_filter. by apply Hlen.
Qed.

Lemma filter_rows_text_column (d : DataFrame) (P : Row → Prop) `{∀ r, Decision (P r)} name :
  text_column d name →
  text_column {| columns := columns d; rows := filter P (rows d) |} name.
Proof.
  intros [Hin Htext]. split; [done|]. simpl.
  rewrite Forall_forall in Htext. apply Forall_forall.
  intros r [_ Hr]%list_elem_of_filter. by apply Htext.
Qed.

Lemma company_flagged_more threshold ns ns' (d : DataFrame) c :
  (∀ x, x ∈ ns → x ∈ ns') →
  company_flagged threshold ns d c → company_flagged threshold ns' d c.
Proof.
  intros Hsub Hc. unfold company_flagged in *.
  eapply Exists_impl; [exact Hc|]. intros r [Hr (s & Hs & Hf)].
  split; [done|]. exists s. split; [done|].
  unfold sentence_flagged in *. apply Exists_exists in Hf as (x & Hx & Hle).
  apply Exists_exists. exists x. split; [by apply Hsub|done].
Qed.

Lemma company_flagged_rows threshold ns (d : DataFrame) (P : Row → Prop)
    `{∀ r, Decision (P r)} c :
  company_flagged threshold ns {| columns := columns d; rows := filter P (rows d) |} c →
  company_flagged threshold ns d c.
Proof.
  unfold company_flagged. simpl. rewrite !Exists_exists.
  intros (r & [_ Hr]%list_elem_of_filter & Hc). by exists r.
Qed.

End FilterMore.

Section FilterExtras.
Context {L : Library}.

(** X7: whenever the filter returns, the table has the columns of the
    input and its rows are rows of the input, in their order: the filter
    adds no row, changes none and moves none. *)
Theorem filter_non_similar_sublist
    (df_expanded : loc) (d : DataFrame) (ns : list string) (h : Heap) (out : DataFrame) :
  h !! df_expanded = Some d →
  returns (filter_non_similar df_expanded ns) h out →
  columns out = columns d ∧ rows out `sublist_of` rows d.
Proof.
  intros Hd Hret.
  pose proof (filter_non_similar_at_run threshold_default df_expanded d ns h Hd) as Hrun.
  apply (returns_unique _ _ _ out) in Hrun; [|exact Hret].
  apply filter_non_similar_value_mask in Hrun as (S & ->). simpl.
  split; [done|]. apply sublist_filter.
Qed.

(** X8: the filter decides by company: of two rows of the input with the
    same company cell, either both are returned or none. *)
Theorem filter_non_similar_by_company
    (df_expanded : loc) (d : DataFrame) (ns : list string) (h : Heap) (out : DataFrame)
    (r1 r2 : Row) :
  h !! df_expanded = Some d →
  returns (filter_non_similar df_expanded ns) h out →
  r1 ∈ rows d → r2 ∈ rows d →
  pd.cell_at (columns d) r1 "company_name" = pd.cell_at (columns d) r2 "company_name" →
  r1 ∈ rows out ↔ r2 ∈ rows out.
Proof.
  intros Hd Hret Hr1 Hr2 Hc.
  pose proof (filter_non_similar_at_run threshold_default df_expanded d ns h Hd) as Hrun.
  apply (returns_unique _ _ _ out) in Hrun; [|exact Hret].
  apply filter_non_similar_value_mask in Hrun as (S & ->). simpl.
  rewrite !list_elem_of_filter, Hc. tauto.
Qed.

(** X9: a row whose company name is missing (NaN) is in no group and is
    never filtered out. *)
Theorem filter_non_similar_keeps_missing_company
    (df_expanded : loc) (d : DataFrame) (ns : list string) (h : Heap) (out : DataFrame)
    (r : Row) :
  h !! df_expanded = Some d →
  returns (filter_non_similar df_expanded ns) h out →
  r ∈ rows d →
  pd.cell_at (columns d) r "company_name" = CNaN →
  r ∈ rows out.
Proof.
  intros Hd Hret Hr Hc.
  pose proof (filter_non_similar_at_run threshold_default df_expanded d ns h Hd) as Hrun.
  apply (returns_unique _ _ _ out) in Hrun; [|exact Hret].
  apply filter_non_similar_value_mask in Hrun as (S & ->). simpl.
  apply list_elem_of_filter. by rewrite Hc.
Qed.

Context {HL : LibraryLaws L}.

(** X10: filtering is idempotent: the table the filter returns, filtered
    again with the same excluded sentences, comes back as it is. *)
Theorem filter_non_similar_idempotent
    (df_expanded : loc) (d : DataFrame) (ns : list string) (h : Heap) :
  h !! df_expanded = Some d →
  well_formed d →
  text_column d "company_name" →
  text_column d "individual_sentences" →
  ns ≠ [] →
  ∃ out,
    returns (filter_non_similar df_expanded ns) h out
    ∧ ∀ h' df_filtered, h' !! df_filtered = Some out →
        returns (filter_non_similar df_filtered ns) h' out.
Proof.
  intros Hd Hwf Hname Htext Hns.
  pose proof (filter_non_similar_at_run threshold_default df_expanded d ns h Hd) as Hrun.
  rewrite filter_non_similar_value_ok in Hrun by done.
  eexists. split; [exact Hrun|]. intros h' df' Hd'.
  pose proof (filter_non_similar_at_run threshold_default df' _ ns h' Hd') as Hrun'.
  rewrite filter_non_similar_value_ok in Hrun'; simpl in Hrun';
    [|by apply filter_rows_well_formed|by apply filter_rows_text_column..|done].
  rewrite filter_all in Hrun'; [exact Hrun'|].
  apply Forall_forall. intros r [Hk _]%list_elem_of_filter c Hc Hflag.
  apply (Hk c Hc). by eapply company_flagged_rows.
Qed.

(** X11: more excluded sentences can only remove rows: the table returned
    for a list that contains every sentence of another list is a sub-list
    of the table returned for that other list. *)
Theorem filter_non_similar_more_sentences
    (df_expanded : loc) (d : DataFrame) (ns ns' : list string) (h : Heap) :
  h !! df_expanded = Some d →
  well_formed d →
  text_column d "company_name" →
  text_column d "individual_sentences" →
  ns ≠ [] →
  (∀ x, x ∈ ns → x ∈ ns') →
  ∃ out out',
    returns (filter_non_similar df_expanded ns) h out
    ∧ returns (filter_non_similar df_expanded ns') h out'
    ∧ rows out' `sublist_of` rows out.
Proof.
  intros Hd Hwf Hname Htext Hns Hsub.
  assert (ns' ≠ []) as Hns'.
  { destruct ns as [|x ns]; [done|]. intros ->.
    specialize (Hsub x). rewrite elem_of_nil in Hsub. apply Hsub. by left. }
  pose proof (filter_non_similar_at_run threshold_default df_expanded d ns h Hd) as Hrun.
  pose proof (filter_non_similar_at_run threshold_default df_expanded d ns' h Hd) as Hrun'.
  rewrite filter_non_similar_value_ok in Hrun, Hrun' by done.
  eexists _, _. split; [exact Hrun|]. split; [exact Hrun'|]. simpl.
  rewrite <-(filter_filter_impl (kept threshold_default ns d)
               (kept threshold_default ns' d)).
  - apply sublist_filter.
  - intros r Hk c Hc Hflag. apply (Hk c Hc). by eapply company_flagged_more.
Qed.

(** X6: [is_similar_to_non_similar] fails on an empty reference set, and
    otherwise answers whether some reference scores the threshold or
    more. *)
Theorem is_similar_to_non_similar_any
    (description_embedding : Vec) (non_similar_embeddings : list Vec) (threshold : Q) :
  match non_similar_embeddings with
  | [] =>
      is_similar_to_non_similar description_embedding [] threshold = Raise RuntimeError
  | _ :: _ =>
      ∃ b, is_similar_to_non_similar description_embedding non_similar_embeddings
             threshold = Ok b
        ∧ (b = true ↔ ∃ x, x ∈ non_similar_embeddings
                          ∧ (threshold <= cos description_embedding x)%Q)
  end.
Proof.
  destruct non_similar_embeddings as [|x xs]; [done|].
  eexists. split; [by apply is_similar_ok|].
  by rewrite bool_decide_eq_true, Exists_exists.
Qed.

End FilterExtras.

(** ** More of the filter on concrete tables *)

(** X7, witness: the rows of "Beta Loans" are filtered out of
    [three_rows]. *)
Lemma filter_non_similar_sublist_witness :
  columns alpha_rows = columns three_rows
  ∧ rows alpha_rows `sublist_of` rows three_rows.
Proof.
  apply (filter_non_similar_sublist (L := Toy.library true) 0%nat three_rows
           ["company provides consumer loans"] {[ 0%nat := three_rows ]} alpha_rows).
  - apply lookup_singleton_eq.
  - pose proof (filter_non_similar_at_run (L := Toy.library true) threshold_default
                  0%nat three_rows ["company provides consumer loans"]
                  {[ 0%nat := three_rows ]} (lookup_singleton_eq _ _)) as Hrun.
    by vm_compute filter_non_similar_value in Hrun.
Defined.

(** X8, witness: the two rows of "Alpha Consulting". *)
Lemma filter_non_similar_by_company_witness :
  [CStr "Alpha Consulting"; CStr "It advises. It is old."; CStr "it advises."]
    ∈ rows alpha_rows
  ↔ [CStr "Alpha Consulting"; CStr "It advises. It is old."; CStr "it is old."]
    ∈ rows alpha_rows.
Proof.
  apply (filter_non_similar_by_company (L := Toy.library true) 0%nat three_rows
           ["company provides consumer loans"] {[ 0%nat := three_rows ]} alpha_rows).
  - apply lookup_singleton_eq.
  - pose proof (filter_non_similar_at_run (L := Toy.library true) threshold_default
                  0%nat three_rows ["company provides consumer loans"]
                  {[ 0%nat := three_rows ]} (lookup_singleton_eq _ _)) as Hrun.
    by vm_compute filter_non_similar_value in Hrun.
  - repeat constructor.
  - repeat constructor.
  - reflexivity.
Defined.

(** X9, witness: the first row of [unnamed_rows] has the sentence that
    excludes "Beta Loans" and is returned. *)
Lemma filter_non_similar_keeps_missing_company_witness :
  [CNaN; CStr "it offers consumer loans."]
    ∈ [[CNaN; CStr "it offers consumer loans."];
       [CStr "Alpha Consulting"; CStr "it advises."]].
Proof.
  apply (filter_non_similar_keeps_missing_company (L := Toy.library true) 0%nat
           unnamed_rows ["company provides consumer loans"] {[ 0%nat := unnamed_rows ]}
           {| columns := ["company_name"; "individual_sentences"];
              rows := [[CNaN; CStr "it offers consumer loans."];
                       [CStr "Alpha Consulting"; CStr "it advises."]] |}).
  - apply lookup_singleton_eq.
  - pose proof (filter_non_similar_at_run (L := Toy.library true) threshold_default
                  0%nat unnamed_rows ["company provides consumer loans"]
                  {[ 0%nat := unnamed_rows ]} (lookup_singleton_eq _ _)) as Hrun.
    by vm_compute filter_non_similar_value in Hrun.
  - repeat constructor.
  - reflexivity.
Defined.

(** X10, witness. *)
Lemma filter_non_similar_idempotent_witness :
  ∃ out,
    returns (filter_non_similar (L := Toy.library true) 0%nat
               ["company provides consumer loans"]) {[ 0%nat := three_rows ]} out
    ∧ ∀ h' df_filtered, h' !! df_filtered = Some out →
        returns (filter_non_similar (L := Toy.library true) df_filtered
                   ["company provides consumer loans"]) h' out.
Proof.
  apply (filter_non_similar_idempotent (HL := toy_laws true) 0%nat three_rows).
  - apply lookup_singleton_eq.
  - split; compute_done.
  - split; [compute_done|]. repeat constructor; by eexists.
  - split; [compute_done|]. repeat constructor; by eexists.
  - done.
Defined.

(** X11, witness: a second excluded sentence, close to a sentence of
    "Alpha Consulting". *)
Lemma filter_non_similar_more_sentences_witness :
  ∃ out out',
    returns (filter_non_similar (L := Toy.library true) 0%nat
               ["company provides consumer loans"]) {[ 0%nat := three_rows ]} out
    ∧ returns (filter_non_similar (L := Toy.library true) 0%nat
                 ["it advises!"; "company provides consumer loans"])
        {[ 0%nat := three_rows ]} out'
    ∧ rows out' `sublist_of` rows out.
Proof.
  apply (filter_non_similar_more_sentences (HL := toy_laws true) 0%nat three_rows).
  - apply lookup_singleton_eq.
  - split; compute_done.
  - split; [compute_done|]. repeat constructor; by eexists.
  - split; [compute_done|]. repeat constructor; by eexists.
  - done.
  - intros x Hx. by apply list_elem_of_further.
Defined.

(** ** More on the ranker *)

Section RankerMore.
Context {L : Library}.

(** [round(x, 4)] moves a score by half a unit of the fourth decimal at
    most. *)
Lemma round4_error (x : Q) :
  (x - (1 # 20000) <= round4 x)%Q ∧ (round4 x <= x + (1 # 20000))%Q.
Proof.
  destruct (Qfloor_bounds (x * 10000)) as [Hlo Hhi].
  rewrite inject_Z_plus in Hhi. change (inject_Z 1) with 1%Q in Hhi.
  assert (round4 x * 10000 == inject_Z (round_half_even (x * 10000)))%Q as Hr.
  { unfold round4, Qeq, Qmult, inject_Z. simpl. lia. }
  destruct (round_half_even_cases (x * 10000)) as [[Heq Hhalf]|[Heq Hhalf]];
    rewrite Heq in Hr; rewrite ?inject_Z_plus in Hr;
    change (inject_Z 1) with 1%Q in Hr; split; lra.
Qed.

Lemma row_getitem_unique cols r name :
  NoDup cols → name ∈ cols → length r = length cols →
  pd.row_getitem cols r name = Ok (pd.cell_at cols r name).
Proof.
  intros Hnd Hin Hlen. unfold pd.row_getitem, pd.cell_at.
  by destruct (cells_at_unique cols r name Hnd Hin Hlen) as [v ->].
Qed.

Lemma row_getitem_absent cols r name :
  name ∉ cols → pd.row_getitem cols r name = Raise KeyError.
Proof. intros Hn. unfold pd.row_getitem. by rewrite cells_at_absent. Qed.

Lemma row_getitem_raise cols r name e :
  pd.row_getitem cols r name = Raise e → e = KeyError.
Proof.
  unfold pd.row_getitem. destruct (pd.cells_at cols r name) as [|? [|? ?]]; congruence.
Qed.

(** A turn of the loop on a row of a table that lacks one of the three
    columns. *)
Lemma result_record_missing (d : DataFrame) (hit : Q * nat) name :
  (hit.2 < length (rows d))%nat →
  name ∈ ["company_name"; "business_description"; "individual_sentences"] →
  name ∉ columns d →
  result_record d hit = Raise KeyError.
Proof.
  intros [r Hr]%lookup_lt_is_Some_2 Hname Hout.
  unfold result_record, pd.iloc. rewrite Hr. cbn [mbind result_bind].
  destruct (pd.row_getitem (columns d) r "company_name") as [c1|e1] eqn:H1;
    [|by rewrite (row_getitem_raise _ _ _ _ H1)].
  cbn [mbind result_bind].
  destruct (pd.row_getitem (columns d) r "business_description") as [c2|e2] eqn:H2;
    [|by rewrite (row_getitem_raise _ _ _ _ H2)].
  cbn [mbind result_bind].
  destruct (pd.row_getitem (columns d) r "individual_sentences") as [c3|e3] eqn:H3;
    [|by rewrite (row_getitem_raise _ _ _ _ H3)].
  exfalso. repeat (apply elem_of_cons in Hname as [->|Hname]);
    [by rewrite row_getitem_absent in H1
    |by rewrite row_getitem_absent in H2
    |by rewrite row_getitem_absent in H3
    |by apply elem_of_nil in Hname].
Qed.

(** A turn of the loop on a row of a table with unique labels. *)
Lemma result_record_cells (d : DataFrame) (v : Q) (i : nat) (row : Row) :
  ranker_table d → NoDup (columns d) → rows d !! i = Some row →
  result_record d (v, i) =
  Ok [pd.cell_at (columns d) row "company_name";
      pd.cell_at (columns d) row "business_description";
      pd.cell_at (columns d) row "individual_sentences";
      CFloat (round4 v)].
Proof.
  intros [Hcols Hlen] Hnd Hrow.
  assert (length row = length (columns d)) as Hr.
  { rewrite Forall_forall in Hlen. apply Hlen. by eapply list_elem_of_lookup_2. }
  apply Forall_cons in Hcols as [H1 Hcols]. apply Forall_cons in Hcols as [H2 Hcols].
  apply Forall_cons in Hcols as [H3 _].
  unfold result_record, pd.iloc. cbn [fst snd]. rewrite Hrow. cbn [mbind result_bind].
  by rewrite !row_getitem_unique.
Qed.

End RankerMore.

Section RankerExtras.
Context {L : Library} {HL : LibraryLaws L}.

(** X12: asked for zero results, the ranker returns a table with no row and
    no column at all: [pd.DataFrame([])] has no labels. *)
Theorem find_top_similar_zero
    (q : string) (qs : list string) (bd_embeddings : list Vec)
    (data : loc) (d : DataFrame) (h : Heap) :
  h !! data = Some d →
  bd_embeddings ≠ [] →
  returns (find_top_similar (q :: qs) bd_embeddings data 0) h
    {| columns := []; rows := [] |}.
Proof.
  intros Hd Hbd.
  pose proof (find_top_similar_run (q :: qs) bd_embeddings data d 0 h Hd) as Hrun.
  unfold find_top_similar_value in Hrun.
  rewrite query_scores_ok in Hrun by done. cbn [mbind result_bind] in Hrun.
  destruct (topk_ok (cos (encode (str_lower q)) <$> bd_embeddings) 0)
    as (hits & Htop & Hlen & _); [lia|].
  rewrite Htop in Hrun. destruct hits; [|simpl in Hlen; lia]. exact Hrun.
Qed.

(** X13: with no query and a candidate, or with a query and no
    candidate, the ranker raises [RuntimeError], whatever the table and
    [top_k]: [util.cos_sim] fails on the shapes of its operands. *)
Theorem find_top_similar_empty_input
    (input_texts : list string) (bd_embeddings : list Vec)
    (data : loc) (top_k : Z) (h : Heap) :
  (input_texts = [] ∧ bd_embeddings ≠ []) ∨ (input_texts ≠ [] ∧ bd_embeddings = []) →
  raises (find_top_similar input_texts bd_embeddings data top_k) h RuntimeError.
Proof.
  intros Hempty. unfold raises, find_top_similar. rewrite bind_run, lift_run.
  rewrite (list_fmap_compose str_lower CStr), encode_sentences_str.
  rewrite bind_run, lift_run.
  destruct Hempty as [[-> Hbd]|[Hq ->]].
  - by destruct bd_embeddings.
  - by destruct input_texts.
Qed.

(** X18: with no query and no candidate [util.cos_sim] does not fail: it
    gives the one score 0, and the ranker asked for one result returns
    the first row of the table with the score 0. *)
Theorem find_top_similar_no_query_no_candidate
    (data : loc) (d : DataFrame) (h : Heap) (row : Row) :
  h !! data = Some d →
  ranker_table d →
  NoDup (columns d) →
  rows d !! 0%nat = Some row →
  returns (find_top_similar [] [] data 1) h
    {| columns := result_labels;
       rows := [[pd.cell_at (columns d) row "company_name";
                 pd.cell_at (columns d) row "business_description";
                 pd.cell_at (columns d) row "individual_sentences";
                 CFloat (round4 0)]] |}.
Proof.
  intros Hd Htable Hnd Hrow.
  pose proof (find_top_similar_run [] [] data d 1 h Hd) as Hrun.
  unfold find_top_similar_value, query_scores in Hrun.
  pose proof (encode_sentences_str []) as He. simpl in He, Hrun. rewrite He in Hrun.
  cbn [mbind result_bind cos_sim first_row] in Hrun.
  destruct (topk_ok [0%Q] 1) as (hits & Htop & Hlen & _ & Hval & _); [simpl; lia|].
  rewrite Htop in Hrun. cbn [mbind result_bind] in Hrun.
  destruct hits as [|[v i] [|]]; [simpl in Hlen; lia| |simpl in Hlen; lia].
  pose proof (Hval v i (list_elem_of_here _ _)) as Hvi.
  destruct i as [|i]; [|done]. injection Hvi as <-.
  cbn [mapM] in Hrun. rewrite (result_record_cells d _ 0%nat row) in Hrun by done.
  exact Hrun.
Qed.

(** X14: every row of the table returned is made of the company name, the
    description and the sentence of the table row at the position of a
    candidate, with the cosine of that candidate against the lowercased
    first query rounded to four decimals; the rounded score is within
    0.00005 of the cosine. *)
Theorem find_top_similar_rows
    (q : string) (qs : list string) (bd_embeddings : list Vec)
    (data : loc) (d : DataFrame) (top_k : Z) (h : Heap) :
  h !! data = Some d →
  bd_embeddings ≠ [] →
  ranker_table d →
  NoDup (columns d) →
  (length bd_embeddings ≤ length (rows d))%nat →
  0 ≤ top_k ≤ Z.of_nat (length bd_embeddings) →
  ∃ out,
    returns (find_top_similar (q :: qs) bd_embeddings data top_k) h out
    ∧ ∀ n r, rows out !! n = Some r →
        ∃ i e row score,
          bd_embeddings !! i = Some e
          ∧ rows d !! i = Some row
          ∧ r = [pd.cell_at (columns d) row "company_name";
                 pd.cell_at (columns d) row "business_description";
                 pd.cell_at (columns d) row "individual_sentences";
                 CFloat score]
          ∧ score = round4 (cos (encode (str_lower q)) e)
          ∧ (cos (encode (str_lower q)) e - (1 # 20000) <= score)%Q
          ∧ (score <= cos (encode (str_lower q)) e + (1 # 20000))%Q.
Proof.
  intros Hd Hbd Htable Hnd Hrows Hk.
  destruct (find_top_similar_hits q qs bd_embeddings data d top_k h)
    as (out & hits & Hret & Htop & Hrec & _); [done..|].
  destruct (topk_ok (cos (encode (str_lower q)) <$> bd_embeddings) top_k)
    as (hits' & Htop' & _ & _ & Hval & _); [by rewrite length_fmap|].
  assert (hits' = hits) as -> by congruence.
  exists out. split; [done|]. intros n r Hn.
  destruct (Forall2_lookup_r _ _ _ _ _ Hrec Hn) as ([v i] & Hhit & Hr).
  apply list_elem_of_lookup_2, Hval, list_lookup_fmap_Some_1 in Hhit as (e & -> & He).
  destruct (lookup_lt_is_Some_2 (rows d) i) as [row Hrow].
  { apply lookup_lt_Some in He. lia. }
  rewrite (result_record_cells d _ i row) in Hr by done. injection Hr as <-.
  exists i, e, row, (round4 (cos (encode (str_lower q)) e)).
  destruct (round4_error (cos (encode (str_lower q)) e)). by split_and!.
Qed.

(** X15: when the table lacks one of the three columns the loop reads and
    at least one result is asked for, the ranker raises [KeyError]. *)
Theorem find_top_similar_missing_column
    (q : string) (qs : list string) (bd_embeddings : list Vec)
    (data : loc) (d : DataFrame) (top_k : Z) (h : Heap) (name : string) :
  h !! data = Some d →
  (length bd_embeddings ≤ length (rows d))%nat →
  1 ≤ top_k ≤ Z.of_nat (length bd_embeddings) →
  name ∈ ["company_name"; "business_description"; "individual_sentences"] →
  name ∉ columns d →
  raises (find_top_similar (q :: qs) bd_embeddings data top_k) h KeyError.
Proof.
  intros Hd Hrows Hk Hname Hout.
  assert (bd_embeddings ≠ []) as Hbd by (intros ->; simpl in Hk; lia).
  pose proof (find_top_similar_run (q :: qs) bd_embeddings data d top_k h Hd) as Hrun.
  unfold find_top_similar_value in Hrun.
  rewrite query_scores_ok in Hrun by done. cbn [mbind result_bind] in Hrun.
  destruct (topk_ok (cos (encode (str_lower q)) <$> bd_embeddings) top_k)
    as (hits & Htop & Hlen & _ & Hval & _); [rewrite length_fmap; lia|].
  rewrite Htop in Hrun. cbn [mbind result_bind] in Hrun.
  destruct hits as [|[v i] hits]; [simpl in Hlen; lia|].
  cbn [mapM] in Hrun. rewrite (result_record_missing d (v, i) name) in Hrun; [done| |done..].
  simpl. assert ((v, i) ∈ (v, i) :: hits) as Hin by by left.
  apply Hval, lookup_lt_Some in Hin. rewrite length_fmap in Hin. lia.
Qed.

End RankerExtras.

(** ** More of the ranker on concrete tables *)

(** X12, witness. *)
Lemma find_top_similar_zero_witness :
  returns (find_top_similar (L := Toy.library true) ["It advises!"]
             [11; 25; 10]%nat 0%nat 0) {[ 0%nat := three_rows ]}
    {| columns := []; rows := [] |}.
Proof.
  apply (find_top_similar_zero (HL := toy_laws true) "It advises!" []
           [11; 25; 10]%nat 0%nat three_rows).
  - apply lookup_singleton_eq.
  - done.
Defined.

(** X13, witness: a candidate and no query; a query and no candidate. *)
Lemma find_top_similar_empty_input_witness :
  raises (find_top_similar (L := Toy.library true) [] [11; 25; 10]%nat 0%nat 2)
    {[ 0%nat := three_rows ]} RuntimeError
  ∧ raises (find_top_similar (L := Toy.library true) ["It advises!"] [] 0%nat 25)
      {[ 0%nat := three_rows ]} RuntimeError.
Proof.
  split.
  - apply (find_top_similar_empty_input (HL := toy_laws true)). by left.
  - apply (find_top_similar_empty_input (HL := toy_laws true)). by right.
Defined.

(** X18, witness. *)
Lemma find_top_similar_no_query_no_candidate_witness :
  returns (find_top_similar (L := Toy.library true) [] [] 0%nat 1)
    {[ 0%nat := three_rows ]}
    {| columns := result_labels;
       rows := [[CStr "Alpha Consulting"; CStr "It advises. It is old.";
                 CStr "it advises."; CFloat (0 # 10000)]] |}.
Proof.
  apply (find_top_similar_no_query_no_candidate (HL := toy_laws true) 0%nat three_rows
           {[ 0%nat := three_rows ]}
           [CStr "Alpha Consulting"; CStr "It advises. It is old."; CStr "it advises."]).
  - apply lookup_singleton_eq.
  - split; compute_done.
  - compute_done.
  - reflexivity.
Defined.

(** X14, witness. *)
Lemma find_top_similar_rows_witness :
  ∃ out,
    returns (find_top_similar (L := Toy.library true) ["It advises!"]
               [11; 25; 10]%nat 0%nat 2) {[ 0%nat := three_rows ]} out
    ∧ ∀ n r, rows out !! n = Some r →
        ∃ i e row score,
          [11; 25; 10]%nat !! i = Some e
          ∧ rows three_rows !! i = Some row
          ∧ r = [pd.cell_at (columns three_rows) row "company_name";
                 pd.cell_at (columns three_rows) row "business_description";
                 pd.cell_at (columns three_rows) row "individual_sentences";
                 CFloat score]
          ∧ score = round4 (Toy.ratio 11 e)
          ∧ (Toy.ratio 11 e - (1 # 20000) <= score)%Q
          ∧ (score <= Toy.ratio 11 e + (1 # 20000))%Q.
Proof.
  apply (find_top_similar_rows (HL := toy_laws true) "It advises!" []
           [11; 25; 10]%nat 0%nat three_rows 2).
  - apply lookup_singleton_eq.
  - done.
  - split; compute_done.
  - compute_done.
  - simpl. lia.
  - simpl. lia.
Defined.

(** X15, witness: a table without descriptions. *)
Lemma find_top_similar_missing_column_witness :
  raises (find_top_similar (L := Toy.library true) ["It advises!"] [11; 25]%nat 0%nat 1)
    {[ 0%nat := {| columns := ["company_name"; "individual_sentences"];
                   rows := [[CStr "Alpha Consulting"; CStr "it advises."];
                            [CStr "Beta Loans"; CStr "it offers consumer loans."]] |} ]}
    KeyError.
Proof.
  apply (find_top_similar_missing_column (HL := toy_laws true) "It advises!" []
           [11; 25]%nat 0%nat
           {| columns := ["company_name"; "individual_sentences"];
              rows := [[CStr "Alpha Consulting"; CStr "it advises."];
                       [CStr "Beta Loans"; CStr "it offers consumer loans."]] |}
           1 _ "business_description").
  - apply lookup_singleton_eq.
  - simpl. lia.
  - simpl. lia.
  - compute_done.
  - compute_done.
Defined.

(** ** The script *)

Section ScriptMore.
Context {L : Library} {HL : LibraryLaws L}.

Lemma bind_ok {A B} (m : M A) (f : A → M B) (h h' : Heap) (a : A) :
  m h = (Ok a, h') → (m ≫= f) h = f a h'.
Proof. intros Hm. by rewrite bind_run, Hm. Qed.

Lemma bind_raises {A B} (m : M A) (f : A → M B) (h : Heap) (e : exn) :
  raises m h e → raises (m ≫= f) h e.
Proof.
  unfold raises. rewrite bind_run. destruct (m h) as [[a|e'] h']; simpl; [done|].
  by intros [= ->].
Qed.

(** The column of a text column, as the strings it holds. *)
Lemma text_column_tolist (d : DataFrame) name :
  NoDup (columns d) → text_column d name →
  ∃ ss, column_tolist d name = Ok (CStr <$> ss) ∧ length ss = length (rows d).
Proof.
  intros Hnd Htext. unfold column_tolist.
  rewrite getitem_unique by (done || apply Htext).
  exists ((λ r, default EmptyString (cell_str (pd.cell_at (columns d) r name))) <$> rows d).
  split; [|by rewrite length_fmap]. f_equal.
  rewrite <-list_fmap_compose. apply list_fmap_ext.
  intros _ r Hr%list_elem_of_lookup_2. unfold compose.
  by destruct (text_column_cell d name r Htext Hr) as [x ->].
Qed.

(** The ranker raises when it is asked for more results than there are
    candidates. *)
Lemma find_top_similar_too_few (q : string) (qs : list string)
    (bd_embeddings : list Vec) (data : loc) (d : DataFrame) (top_k : Z) (h : Heap) :
  h !! data = Some d →
  Z.of_nat (length bd_embeddings) < top_k →
  raises (find_top_similar (q :: qs) bd_embeddings data top_k) h RuntimeError.
Proof.
  intros Hd Hk.
  pose proof (find_top_similar_run (q :: qs) bd_embeddings data d top_k h Hd) as Hrun.
  unfold find_top_similar_value in Hrun. rewrite query_scores_cons in Hrun.
  destruct bd_embeddings as [|e es] eqn:Hbd; [done|]. rewrite <-Hbd in *.
  cbn [mbind result_bind] in Hrun.
  rewrite topk_range in Hrun; [done|]. rewrite length_fmap. lia.
Qed.

(** A run of the ranker on a table with unique labels and a row per
    candidate, as a step of a longer computation. *)
Lemma find_top_similar_step (q : string) (qs : list string)
    (bd_embeddings : list Vec) (data : loc) (d : DataFrame) (top_k : Z) (h : Heap) :
  h !! data = Some d →
  bd_embeddings ≠ [] →
  ranker_table d →
  NoDup (columns d) →
  length bd_embeddings = length (rows d) →
  0 ≤ top_k ≤ Z.of_nat (length bd_embeddings) →
  ∃ l h' out,
    find_top_similar (q :: qs) bd_embeddings data top_k h = (Ok l, h')
    ∧ h' !! l = Some out
    ∧ h ⊆ h'
    ∧ Z.of_nat (length (rows out)) = top_k
    ∧ ∀ r, r ∈ rows out →
        ∃ row, row ∈ rows d
          ∧ pd.row_getitem result_labels r "company_name"
            = Ok (pd.cell_at (columns d) row "company_name").
Proof.
  intros Hd Hbd Htable Hnd Hrows Hk.
  destruct (find_top_similar_hits q qs bd_embeddings data d top_k h)
    as (out & hits & (l & h' & Hret & Hl) & Htop & Hrec & _); [done..|lia|done|].
  destruct (topk_ok (cos (encode (str_lower q)) <$> bd_embeddings) top_k)
    as (hits' & Htop' & Hlen & _ & Hval & _); [by rewrite length_fmap|].
  assert (hits' = hits) as -> by congruence.
  exists l, h', out. split_and!; [done..| | |].
  - pose proof (find_top_similar_allocates (q :: qs) bd_embeddings data top_k h)
      as [Hsub _]. by rewrite Hret in Hsub.
  - apply Forall2_length in Hrec. by rewrite <-Hrec.
  - intros r [n Hn]%list_elem_of_lookup_1.
    destruct (Forall2_lookup_r _ _ _ _ _ Hrec Hn) as ([v i] & Hhit & Hr).
    apply list_elem_of_lookup_2, Hval, lookup_lt_Some in Hhit.
    rewrite length_fmap, Hrows in Hhit.
    apply lookup_lt_is_Some_2 in Hhit as [row Hrow].
    rewrite (result_record_cells d _ i row) in Hr by done. injection Hr as <-.
    exists row. split; [by eapply list_elem_of_lookup_2|done].
Qed.

End ScriptMore.

Section ScriptExtras.
Context {L : Library} {HL : LibraryLaws L}.

(** X16: the script needs 25 sentences: when the table [load_data] returns
    has string sentences and fewer than 25 rows, the first ranking raises
    [RuntimeError] (the default [top_k] is 25) and nothing is returned. *)
Theorem main_too_few_sentences (csv : DataFrame) (h : Heap) (out : DataFrame) :
  returns (load_data csv) h out →
  NoDup (columns out) →
  text_column out "individual_sentences" →
  (length (rows out) < 25)%nat →
  raises (main csv) h RuntimeError.
Proof.
  intros (l & h1 & Hload & Hl) Hnd Htext Hlen.
  unfold raises, main. rewrite (bind_ok _ _ _ _ _ Hload).
  rewrite bind_run, (deref_run l h1 out Hl), bind_run, lift_run.
  destruct (text_column_tolist out "individual_sentences" Hnd Htext) as (ss & -> & Hss).
  rewrite bind_run, lift_run, encode_sentences_str.
  apply bind_raises. apply (find_top_similar_too_few _ _ _ _ out); [done|].
  rewrite length_fmap. unfold top_k_default. lia.
Qed.

(** X17: when the table [load_data] returns is well formed with string
    company names and sentences, and 25 of its rows or more are of
    companies the filter keeps, the script returns two tables of 25 rows
    each, and every row of the second, filtered one carries the company
    name of a row the filter keeps: no excluded company is in the filtered
    results. *)
Theorem main_filtered_results (csv : DataFrame) (h : Heap) (out : DataFrame) :
  returns (load_data csv) h out →
  well_formed out →
  "business_description" ∈ columns out →
  text_column out "company_name" →
  text_column out "individual_sentences" →
  (25 ≤ length (filter (kept threshold_default non_similar_sentences out) (rows out)))%nat →
  ∃ l1 l2 h' results filtered_results,
    main csv h = (Ok (l1, l2), h')
    ∧ h' !! l1 = Some results
    ∧ h' !! l2 = Some filtered_results
    ∧ length (rows results) = 25%nat
    ∧ length (rows filtered_results) = 25%nat
    ∧ ∀ r, r ∈ rows filtered_results →
        ∃ row, row ∈ rows out
          ∧ kept threshold_default non_similar_sentences out row
          ∧ pd.row_getitem result_labels r "company_name"
            = Ok (pd.cell_at (columns out) row "company_name").
Proof.
  intros (l & h1 & Hload & Hl) Hwf Hdesc Hname Htext Hkept.
  pose proof Hwf as [Hnd Hfull].
  assert (ranker_table out) as Htable.
  { split; [|done]. repeat constructor; (done || apply Hname || apply Htext). }
  set (keep := kept threshold_default non_similar_sentences out) in *.
  set (fout := {| columns := columns out; rows := filter keep (rows out) |}).
  assert (length (filter keep (rows out)) ≤ length (rows out))%nat as Hle
    by apply length_filter.
  unfold main. rewrite (bind_ok _ _ _ _ _ Hload).
  rewrite bind_run, (deref_run l h1 out Hl), bind_run, lift_run.
  destruct (text_column_tolist out "individual_sentences" Hnd Htext) as (ss & -> & Hss).
  rewrite bind_run, lift_run, encode_sentences_str.
  (* the first ranking *)
  destruct (find_top_similar_step "provides consultancy services." []
              (encode <$> ss) l out top_k_default h1)
    as (l2 & h2 & res & Hrank & Hl2 & Hsub2 & Hlen2 & _); [done| |done..| | |].
  { intros Hnil%fmap_nil_inv. subst ss. simpl in Hss. lia. }
  { by rewrite length_fmap. }
  { rewrite length_fmap. unfold top_k_default. lia. }
  unfold input_sentences at 1. rewrite (bind_ok _ _ _ _ _ Hrank).
  (* the filter *)
  assert (h2 !! l = Some out) as Hl' by by eapply lookup_weaken.
  pose proof (filter_non_similar_at_run threshold_default l out
                non_similar_sentences h2 Hl') as Hfilter.
  rewrite filter_non_similar_value_ok in Hfilter by done.
  fold keep fout in Hfilter. destruct Hfilter as (l3 & h3 & Hfilter & Hl3).
  pose proof (filter_non_similar_at_allocates threshold_default l
                non_similar_sentences h2) as [Hsub3 _].
  rewrite Hfilter in Hsub3. simpl in Hsub3.
  unfold filter_non_similar. rewrite (bind_ok _ _ _ _ _ Hfilter).
  rewrite bind_run, (deref_run l3 h3 fout Hl3), bind_run, lift_run.
  assert (well_formed fout) as [Hnd' Hfull'] by by apply filter_rows_well_formed.
  assert (text_column fout "company_name") as Hname'
    by by apply filter_rows_text_column.
  assert (text_column fout "individual_sentences") as Htext'
    by by apply filter_rows_text_column.
  destruct (text_column_tolist fout "individual_sentences" Hnd' Htext')
    as (ss' & -> & Hss').
  rewrite bind_run, lift_run, encode_sentences_str.
  (* the second ranking *)
  destruct (find_top_similar_step "provides consultancy services." []
              (encode <$> ss') l3 fout top_k_default h3)
    as (l4 & h4 & fres & Hrank' & Hl4 & Hsub4 & Hlen4 & Hrows4); [done| | |done| | |].
  { intros Hnil%fmap_nil_inv. subst ss'. simpl in Hss'. lia. }
  { split; [|done]. repeat constructor; (done || apply Hname || apply Htext). }
  { by rewrite length_fmap. }
  { rewrite length_fmap, Hss'. unfold top_k_default. simpl. lia. }
  unfold input_sentences. rewrite (bind_ok _ _ _ _ _ Hrank').
  exists l2, l4, h4, res, fres. split_and!; [done| |done| | |].
  - eapply lookup_weaken; [|exact Hsub4]. by eapply lookup_weaken.
  - unfold top_k_default in Hlen2. lia.
  - unfold top_k_default in Hlen4. lia.
  - intros r Hr. destruct (Hrows4 r Hr) as (row & [Hk Hrow]%list_elem_of_filter & Hc).
    by exists row.
Qed.

End ScriptExtras.

(** ** The script on concrete files *)

(** X16, witness: a file of one record with two sentences. *)
Lemma main_too_few_sentences_witness :
  raises (main (L := Toy.library true)
            {| columns := ["Company Name"; "Business Description"];
               rows := [[CStr "Acme"; CStr "It sells tea. It is old."]] |}) ∅
    RuntimeError.
Proof.
  apply (main_too_few_sentences (HL := toy_laws true)
           {| columns := ["Company Name"; "Business Description"];
              rows := [[CStr "Acme"; CStr "It sells tea. It is old."]] |} ∅
           {| columns := ["company_name"; "business_description";
                          "cleaned_description"; "individual_sentences"];
              rows := [[CStr "Acme"; CStr "It sells tea. It is old.";
                        CStr "it sells tea. it is old."; CStr "it sells tea."];
                       [CStr "Acme"; CStr "It sells tea. It is old.";
                        CStr "it sells tea. it is old."; CStr "it is old."]] |}).
  - pose proof (load_data_run (L := Toy.library true)
                  {| columns := ["Company Name"; "Business Description"];
                     rows := [[CStr "Acme"; CStr "It sells tea. It is old."]] |} ∅)
      as Hrun.
    by vm_compute load_data_value in Hrun.
  - compute_done.
  - split; [compute_done|]. repeat constructor; by eexists.
  - simpl. lia.
Defined.

(** X17, witness: 25 sentences of "Alpha Consulting" and one of "Beta
    Loans", which the filter excludes. *)
Lemma main_filtered_results_witness :
  ∃ l1 l2 h' results filtered_results,
    main (L := Toy.library true) many_records ∅ = (Ok (l1, l2), h')
    ∧ h' !! l1 = Some results
    ∧ h' !! l2 = Some filtered_results
    ∧ length (rows results) = 25%nat
    ∧ length (rows filtered_results) = 25%nat
    ∧ ∀ r, r ∈ rows filtered_results →
        ∃ row, row ∈ rows many_rows
          ∧ kept (L := Toy.library true) threshold_default non_similar_sentences
              many_rows row
          ∧ pd.row_getitem result_labels r "company_name"
            = Ok (pd.cell_at (columns many_rows) row "company_name").
Proof.
  apply (main_filtered_results (HL := toy_laws true) many_records ∅ many_rows).
  - pose proof (load_data_run (L := Toy.library true) many_records ∅) as Hrun.
    by vm_compute load_data_value in Hrun.
  - split; compute_done.
  - compute_done.
  - split; [compute_done|]. repeat constructor; by eexists.
  - split; [compute_done|]. repeat constructor; by eexists.
  - vm_compute. lia.
Defined.
